(** * Food recognition edge function: portion model, nutrition estimator,
      detector adapter and request handler, with its client

    A shallow embedding of [supabase/functions/food-recognition/index.ts]
    (the Deno handler that turns detections into nutrition-annotated food
    items) together with the properties its specification states, and of
    the code around it: the client service that calls the handler and
    searches the food database ([recognizeFood], [searchFoods]), the state
    updates of the meal page that uses the client ([processImage],
    [handleSearch], [addFoodItem], [removeFood], [updateFood],
    [getTotalNutrition]) and [toggleAllergy] of the profile forms.

    Conventions of the embedding.
    - A JavaScript [number] is an IEEE 754 binary64 value, [spec_float] with
      [prec = 53] and [emax = 1024]; [+], [*], [/] and [<] are the
      correctly rounded operations of [SpecFloat].  A decimal literal such
      as [0.92] is the binary64 value nearest to 92/100, obtained here as the
      correctly rounded quotient of the two integers.
    - Strings are [string]; labels are taken to be ASCII, so [toLowerCase]
      acts on the letters [A-Z] only and [\s] is one of the six ASCII white
      space characters.
    - The three constant tables and [groupedDetections] are plain objects
      used as maps: association lists of their own properties in the order
      of creation.  [o[key]] finds an own property or else a member
      inherited from [Object.prototype] (["constructor"], ["__proto__"],
      ...), and [Object.entries] lists array indices first, in ascending
      order, and then the other keys in the order of creation.
    - [try]/[catch] and rejected promises are the error monad [sum exn] of
      ExtLib; [console.log] and [console.error] have no effect on results
      and are left out.
    - What the environment supplies is a parameter: the [fetch] of the
      detection service and of the edge function, the clock readings, the
      outcome of reading the image file and the identifiers drawn from
      [Math.random].  The client passes the foods of a reply on without
      reading them, so their type at the client is left open; a reply is
      read with the properties its sender declares.  React state is the
      value passed to its setter. *)

From Stdlib Require Import ZArith NArith List String Ascii Bool Lia Permutation.
From Stdlib Require Import DecimalString DecimalNat.
From Stdlib Require Import Floats.SpecFloat.
From ExtLib Require Import Structures.Monad Structures.MonadExc Data.Monads.EitherMonad.
Import ListNotations.
Import MonadNotation.

Local Open Scope monad_scope.
Local Open Scope string_scope.
Local Open Scope list_scope.

(** ** JavaScript numbers *)

Module Number.

Definition number : Type := spec_float.

Definition prec : Z := 53.
Definition emax : Z := 1024.

(** The binary64 value of an integer (exact below 2^53). *)
Definition of_Z (n : Z) : number := binary_normalize prec emax n 0 false.
Definition of_nat (n : nat) : number := of_Z (Z.of_nat n).

Definition add : number -> number -> number := SFadd prec emax.
Definition mul : number -> number -> number := SFmul prec emax.
Definition div : number -> number -> number := SFdiv prec emax.
Definition lt : number -> number -> bool := SFltb.
Definition le : number -> number -> bool := SFleb.

(** The literal [n/d] written in decimal, e.g. [dec 92 100] for [0.92]. *)
Definition dec (n d : Z) : number := div (of_Z n) (of_Z d).

Definition NaN : number := S754_nan.
Definition neg_infinity : number := S754_infinity true.

Definition is_nan (x : number) : bool :=
  match x with S754_nan => true | _ => false end.

(** [ToBoolean] on a number: [0], [-0] and [NaN] are falsy. *)
Definition truthy (x : number) : bool :=
  match x with
  | S754_zero _ | S754_nan => false
  | _ => true
  end.

(** [floor (x + 1/2)] for the finite value [(-1)^s * m * 2^e], computed on
    integers. *)
Definition round_half_up (s : bool) (m : positive) (e : Z) : Z :=
  let v := cond_Zopp s (Zpos m) in
  if (0 <=? e)%Z then (v * 2 ^ e)%Z
  else ((2 * v + 2 ^ (- e)) / 2 ^ (1 - e))%Z.

(** [Math.round]: the integer closest to [x], ties towards +infinity;
    [NaN], the infinities and the zeros are returned unchanged, and a
    result of zero keeps the sign of [x]. *)
Definition Math_round (x : number) : number :=
  match x with
  | S754_finite s m e =>
      if (0 <=? e)%Z then x
      else
        let n := round_half_up s m e in
        if (n =? 0)%Z then S754_zero s else of_Z n
  | _ => x
  end.

(** One step of [Math.max]: the running maximum [highest] against the
    next argument. *)
Definition max_step (highest x : number) : number :=
  match highest, x with
  | S754_zero true, S754_zero false => x
  | _, _ => if lt highest x then x else highest
  end.

(** [Math.max(...xs)]: [NaN] as soon as one argument is [NaN], otherwise
    the largest argument, starting from [-Infinity]. *)
Definition Math_max (xs : list number) : number :=
  if existsb is_nan xs then NaN else fold_left max_step xs neg_infinity.

(** [xs.reduce((sum, x) => sum + x, 0)]. *)
Definition total (xs : list number) : number :=
  fold_left add xs (of_Z 0).

(** Template-literal rendering of a non-negative integer. *)
Definition nat_to_string (n : nat) : string :=
  NilZero.string_of_uint (Nat.to_uint n).
Definition N_to_string (n : N) : string :=
  NilZero.string_of_uint (N.to_uint n).

End Number.

Import Number.

(** ** JavaScript strings *)

Module Str.

Definition is_upper (c : ascii) : bool :=
  let n := nat_of_ascii c in (65 <=? n)%nat && (n <=? 90)%nat.

Definition lower_char (c : ascii) : ascii :=
  if is_upper c then ascii_of_nat (nat_of_ascii c + 32) else c.

(** [s.toLowerCase()]. *)
Fixpoint toLowerCase (s : string) : string :=
  match s with
  | EmptyString => EmptyString
  | String c rest => String (lower_char c) (toLowerCase rest)
  end.

(** The class [\s] restricted to ASCII: tab, line feed, vertical tab, form
    feed, carriage return and space. *)
Definition is_space (c : ascii) : bool :=
  let n := nat_of_ascii c in
  ((9 <=? n)%nat && (n <=? 13)%nat) || (n =? 32)%nat.

(** [s.replace(/\s+/g, '_')]: every maximal run of white space becomes one
    underscore.  [in_run] tells that the previous character was white
    space. *)
Fixpoint replace_spaces_from (in_run : bool) (s : string) : string :=
  match s with
  | EmptyString => EmptyString
  | String c rest =>
      if is_space c then
        if in_run then replace_spaces_from true rest
        else String "_" (replace_spaces_from true rest)
      else String c (replace_spaces_from false rest)
  end.

Definition replace_spaces (s : string) : string :=
  replace_spaces_from false s.

Fixpoint trimStart (s : string) : string :=
  match s with
  | EmptyString => EmptyString
  | String c rest => if is_space c then trimStart rest else s
  end.

Fixpoint trimEnd (s : string) : string :=
  match s with
  | EmptyString => EmptyString
  | String c rest =>
      let rest' := trimEnd rest in
      if is_space c && (rest' =? "") then EmptyString else String c rest'
  end.

(** [s.trim()]. *)
Definition trim (s : string) : string := trimEnd (trimStart s).

End Str.

(** ** Plain objects used as maps *)

Module Obj.

(** The names of the properties of [Object.prototype], which every object
    written as a literal inherits. *)
Definition prototype_names : list string :=
  [ "constructor"; "__defineGetter__"; "__defineSetter__"; "hasOwnProperty";
    "__lookupGetter__"; "__lookupSetter__"; "isPrototypeOf";
    "propertyIsEnumerable"; "toString"; "valueOf"; "__proto__";
    "toLocaleString" ].

Definition inherited (key : string) : bool :=
  existsb (String.eqb key) prototype_names.

(** The number of an array index: [key] is the canonical decimal rendering
    of an integer from 0 to 2^32 - 2. *)
Definition array_index (key : string) : option N :=
  match NilZero.uint_of_string key with
  | Some d =>
      let n := N.of_uint d in
      if (N_to_string n =? key) && (n <? 4294967295)%N then Some n else None
  | None => None
  end.

Section Object.
Context {V : Type}.

(** The own properties of an object, in the order of their creation. *)
Definition t : Type := list (string * V).

(** The own property [key] of [o], if there is one. *)
Fixpoint get (key : string) (o : t) : option V :=
  match o with
  | [] => None
  | (k, v) :: rest => if k =? key then Some v else get key rest
  end.

(** The value of [o[key]]: an own property; else a member of
    [Object.prototype], which is a function or, for ["__proto__"], the
    prototype itself; else [undefined]. *)
Inductive Member : Type :=
| Own (v : V)
| Inherited
| Missing.

Definition member (key : string) (o : t) : Member :=
  match get key o with
  | Some v => Own v
  | None => if inherited key then Inherited else Missing
  end.

(** [o[key] = v] for a [key] other than ["__proto__"], whose assignment
    is taken by the accessor of [Object.prototype]: an existing own
    property keeps its place, a new one goes last. *)
Fixpoint set (key : string) (v : V) (o : t) : t :=
  match o with
  | [] => [(key, v)]
  | (k, w) :: rest =>
      if k =? key then (k, v) :: rest else (k, w) :: set key v rest
  end.

(** Insertion into a list sorted by array index. *)
Fixpoint insert (n : N) (entry : string * V)
    (sorted : list (N * (string * V))) : list (N * (string * V)) :=
  match sorted with
  | [] => [(n, entry)]
  | (m, e) :: rest =>
      if (n <? m)%N then (n, entry) :: sorted
      else (m, e) :: insert n entry rest
  end.

(** The properties whose key is an array index, in ascending order of the
    index. *)
Fixpoint indexed (o : t) : list (N * (string * V)) :=
  match o with
  | [] => []
  | (k, v) :: rest =>
      match array_index k with
      | Some n => insert n (k, v) (indexed rest)
      | None => indexed rest
      end
  end.

(** The other properties, in the order of their creation. *)
Definition named (o : t) : t :=
  filter (fun entry =>
            match array_index (fst entry) with
            | Some _ => false
            | None => true
            end) o.

(** [Object.entries(o)]: the array indices first, in ascending order, then
    the other keys in the order of their creation. *)
Definition entries (o : t) : list (string * V) :=
  map snd (indexed o) ++ named o.
End Object.

Arguments t : clear implicits.
Arguments Member : clear implicits.

End Obj.

(** The order in which [Object.entries] lists properties created in the
    order [keys]. *)
Definition entriesOrder (keys : list string) : list string :=
  map fst (Obj.entries (map (fun key => (key, tt)) keys)).

(** ** Data of the handler *)

(** [interface FoodItem]. *)
Module FoodItem.
Record t : Type := mk {
  name : string;
  portion_size : string;
  portion_grams : number;
  calories : number;
  protein : number;
  carbs : number;
  fat : number;
  confidence : number
}.

(** [item.confidence = c]. *)
Definition set_confidence (item : t) (c : number) : t :=
  mk (name item) (portion_size item) (portion_grams item) (calories item)
     (protein item) (carbs item) (fat item) c.
End FoodItem.

(** One element of the array returned by the detector. *)
Module Detection.
Record t : Type := mk {
  food_name : string;
  confidence : number;
  area_ratio : number
}.
End Detection.

(** One element of a [groupedDetections] array. *)
Module Reading.
Record t : Type := mk {
  confidence : number;
  area_ratio : number
}.
End Reading.

(** The value type of [NUTRITION_DATA]. *)
Module Profile.
Record t : Type := mk {
  calories_per_100g : number;
  carbs_g : number;
  protein_g : number;
  fat_g : number;
  gi_value : number;
  gi_category : string
}.
End Profile.

(** Integer literals and literals with one decimal digit, written in
    tenths: [tenths 79] is [7.9]. *)
Definition int (n : Z) : number := of_Z n.
Definition tenths (n : Z) : number := dec n 10.

Definition NUTRITION_DATA : Obj.t Profile.t :=
  [ ("bhatura", Profile.mk (int 330) (int 50) (int 7) (int 12) (int 70) "High");
    ("chapathi", Profile.mk (int 299) (int 46) (tenths 79) (tenths 92) (int 45) "Low");
    ("cooked_rice", Profile.mk (int 130) (int 28) (tenths 27) (tenths 3) (int 72) "High");
    ("dal", Profile.mk (int 116) (int 20) (int 9) (int 1) (int 30) "Low");
    ("dosa", Profile.mk (int 168) (int 30) (int 4) (tenths 37) (int 55) "Medium");
    ("egg_curry", Profile.mk (int 155) (int 4) (int 11) (int 11) (int 45) "Low");
    ("groundnut_chutney", Profile.mk (int 250) (int 16) (int 8) (int 18) (int 25) "Low");
    ("idiyappam", Profile.mk (int 150) (int 32) (int 2) (tenths 5) (int 65) "Medium");
    ("idli", Profile.mk (int 58) (int 12) (int 2) (tenths 4) (int 60) "Medium");
    ("jalebi", Profile.mk (int 459) (int 60) (int 4) (int 22) (int 75) "High");
    ("lemon_rice", Profile.mk (int 185) (int 28) (int 4) (int 6) (int 60) "Medium");
    ("pongal", Profile.mk (int 160) (int 27) (int 5) (int 4) (int 60) "Medium");
    ("pulihora", Profile.mk (int 180) (int 30) (int 4) (int 6) (int 60) "Medium");
    ("sambar", Profile.mk (int 90) (int 12) (int 4) (int 3) (int 35) "Low");
    ("samosa", Profile.mk (int 320) (int 35) (int 7) (int 18) (int 70) "High");
    ("umpa", Profile.mk (int 190) (int 35) (int 4) (int 6) (int 65) "Medium");
    ("uttampam", Profile.mk (int 170) (int 28) (int 4) (int 4) (int 55) "Medium");
    ("vada", Profile.mk (int 320) (int 35) (int 7) (int 18) (int 70) "High");
    ("beetroot", Profile.mk (int 43) (int 10) (tenths 16) (tenths 2) (int 64) "Medium");
    ("brinjal", Profile.mk (int 25) (int 6) (int 1) (tenths 2) (int 15) "Low");
    ("capsicum", Profile.mk (int 31) (int 6) (int 1) (tenths 3) (int 15) "Low");
    ("carrot", Profile.mk (int 41) (int 10) (tenths 9) (tenths 2) (int 35) "Low");
    ("cucumber", Profile.mk (int 15) (tenths 36) (tenths 7) (tenths 1) (int 15) "Low");
    ("groundnuts", Profile.mk (int 567) (int 16) (int 26) (int 49) (int 14) "Low");
    ("ladys_finger", Profile.mk (int 33) (int 7) (tenths 19) (tenths 2) (int 20) "Low");
    ("onion", Profile.mk (int 40) (int 9) (tenths 11) (tenths 1) (int 10) "Low");
    ("paneer", Profile.mk (int 265) (tenths 12) (int 18) (int 20) (int 27) "Low");
    ("raw_rice", Profile.mk (int 365) (int 80) (tenths 75) (tenths 7) (int 0) "Low");
    ("spinach", Profile.mk (int 23) (tenths 36) (tenths 29) (tenths 4) (int 15) "Low");
    ("tomato", Profile.mk (int 18) (tenths 39) (tenths 9) (tenths 2) (int 15) "Low") ].

Definition COUNTABLE_FOODS : Obj.t number :=
  [ ("idli", int 40);
    ("vada", int 70);
    ("dosa", int 120);
    ("chapathi", int 45);
    ("samosa", int 100);
    ("bhatura", int 100);
    ("jalebi", int 60);
    ("idiyappam", int 50);
    ("uttampam", int 100) ].

Definition PORTION_GRAMS : Obj.t number :=
  [ ("Small", int 75);
    ("Medium", int 100);
    ("Large", int 150);
    ("Very Large", int 200) ].

(** [table[key]] read where a number is expected: [undefined] and the
    members of [Object.prototype] become [NaN] in arithmetic. *)
Definition number_at (key : string) (table : Obj.t number) : number :=
  match Obj.member key table with
  | Obj.Own v => v
  | Obj.Inherited | Obj.Missing => NaN
  end.

(** [if (table[key])]: functions and objects are truthy. *)
Definition truthy_at (key : string) (table : Obj.t number) : bool :=
  match Obj.member key table with
  | Obj.Own v => truthy v
  | Obj.Inherited => true
  | Obj.Missing => false
  end.

(** ** Portion model and nutrition estimator *)

Definition getPortionFromArea (areaRatio : number) : string :=
  if lt areaRatio (dec 10 100) then "Small"
  else if lt areaRatio (dec 25 100) then "Medium"
  else if lt areaRatio (dec 50 100) then "Large"
  else "Very Large".

(** The key under which a food name is looked up:
    [foodName.toLowerCase().replace(/\s+/g, '_')]. *)
Definition normalizedFoodName (foodName : string) : string :=
  Str.replace_spaces (Str.toLowerCase foodName).

(** The item returned when the food is not found. *)
Definition default_item (foodName : string) : FoodItem.t :=
  FoodItem.mk foodName "1 portion" (int 100) (int 200) (int 10) (int 30)
              (int 5) (dec 5 10).

(** [portionGrams] and [portionSize] of a food that is found.  [count] is
    an array length at the only call site, hence a natural number. *)
Definition portion (key : string) (count : nat) (areaRatio : number)
  : number * string :=
  if truthy_at key COUNTABLE_FOODS then
    (mul (of_nat count) (number_at key COUNTABLE_FOODS),
     (nat_to_string count ++ " pieces")%string)
  else
    let portion := getPortionFromArea areaRatio in
    (number_at portion PORTION_GRAMS, (portion ++ " portion")%string).

(** [Math.round(v * multiplier * 10) / 10]. *)
Definition round1 (v multiplier : number) : number :=
  div (Math_round (mul (mul v multiplier) (int 10))) (int 10).

(** [nutrition.field] in arithmetic: a member of [Object.prototype] has
    none of the fields of a row, and [undefined] becomes [NaN]. *)
Definition property (field : Profile.t -> number)
    (nutrition : Obj.Member Profile.t) : number :=
  match nutrition with
  | Obj.Own row => field row
  | Obj.Inherited | Obj.Missing => NaN
  end.

Definition calculateNutrition (foodName : string) (count : nat)
    (areaRatio : number) : FoodItem.t :=
  let key := normalizedFoodName foodName in
  let nutrition := Obj.member key NUTRITION_DATA in
  match nutrition with
  | Obj.Missing => default_item foodName
  | Obj.Own _ | Obj.Inherited =>
      let '(portionGrams, portionSize) := portion key count areaRatio in
      let multiplier := div portionGrams (int 100) in
      FoodItem.mk foodName portionSize portionGrams
        (Math_round (mul (property Profile.calories_per_100g nutrition)
                         multiplier))
        (round1 (property Profile.protein_g nutrition) multiplier)
        (round1 (property Profile.carbs_g nutrition) multiplier)
        (round1 (property Profile.fat_g nutrition) multiplier)
        (dec 85 100)
  end.

(** ** Exceptions and untyped values *)

(** A thrown value: an [Error] object with its message ([TypeError],
    [SyntaxError], a rejected [fetch], ...) or anything else. *)
Inductive exn : Type :=
| Error (message : string)
| NotAnError.

(** A computation that returns a value or throws. *)
Definition Js : Type -> Type := sum exn.

(** A value whose type is not known statically, as far as the handler looks
    at it: the [image] property of the request body. *)
Inductive JsValue : Type :=
| Undefined
| Null
| Bool (b : bool)
| Num (x : number)
| Text (s : string)
| Compound.

Definition ToBoolean (v : JsValue) : bool :=
  match v with
  | Undefined | Null => false
  | Bool b => b
  | Num x => truthy x
  | Text s => negb (s =? "")
  | Compound => true
  end.

(** [xs.forEach(x => ...)] where the callback updates the variables [s] it
    closes over and may throw. *)
Fixpoint forEach {A S : Type} (f : S -> A -> Js S) (xs : list A) (s : S)
  : Js S :=
  match xs with
  | [] => ret s
  | x :: rest => s' <- f s x ;; forEach f rest s'
  end.

(** ** Detector adapter *)

(** The value of [await response.json()] as the adapter inspects it:
    [null], or a value whose [success] property is truthy or not and whose
    [detections] property is absent or falsy ([None]) or, by the declared
    return type, an array of detections. *)
Inductive ApiResult : Type :=
| ResultNull
| Result (success : bool) (detections : option (list Detection.t)).

(** The [Response] of the detection service. *)
Module Reply.
Record t : Type := mk {
  ok : bool;
  status : nat;
  json : Js ApiResult
}.
End Reply.

(** [fetch("http://localhost:8000/detect", ...)] with the image in the
    body: it rejects or resolves to a reply. *)
Definition Fetch : Type := JsValue -> Js Reply.t.

Definition mockCNNDetection : list Detection.t :=
  [ Detection.mk "Idli" (dec 92 100) (dec 15 100);
    Detection.mk "Sambar" (dec 87 100) (dec 35 100);
    Detection.mk "Chapathi" (dec 78 100) (dec 20 100) ].

(** The body of the [try] in [runCNNDetection]. *)
Definition callDetectionApi (fetch : Fetch) (image : JsValue)
  : Js (list Detection.t) :=
  response <- fetch image ;;
  if negb (Reply.ok response) then ret mockCNNDetection
  else
    result <- Reply.json response ;;
    match result with
    | ResultNull =>
        raise (Error "Cannot read properties of null (reading 'success')")
    | Result true (Some detections) => ret detections
    | Result _ _ => ret mockCNNDetection
    end.

Definition runCNNDetection (fetch : Fetch) (image : JsValue)
  : Js (list Detection.t) :=
  catch (callDetectionApi fetch image) (fun _ => ret mockCNNDetection).

(** ** Grouping and aggregation *)

Definition Grouped : Type := Obj.t (list Reading.t).

(** The [TypeError] of calling [push] on a member of [Object.prototype]. *)
Definition pushIsNotAFunction : exn :=
  Error "groupedDetections[foodKey].push is not a function".

(** The callback of [detections.forEach]. *)
Definition addDetection (groupedDetections : Grouped)
    (detection : Detection.t) : Js Grouped :=
  let foodKey := Str.toLowerCase (Detection.food_name detection) in
  let grouped :=
    match Obj.member foodKey groupedDetections with
    | Obj.Missing => Obj.set foodKey [] groupedDetections
    | Obj.Own _ | Obj.Inherited => groupedDetections
    end in
  match Obj.member foodKey grouped with
  | Obj.Own readings =>
      ret (Obj.set foodKey
             (readings ++ [Reading.mk (Detection.confidence detection)
                                      (Detection.area_ratio detection)])
             grouped)
  | Obj.Inherited => raise pushIsNotAFunction
  | Obj.Missing =>
      raise (Error "Cannot read properties of undefined (reading 'push')")
  end.

Definition groupDetections (detections : list Detection.t) : Js Grouped :=
  forEach addDetection detections [].

(** The constants computed at the head of the second [forEach] callback. *)
Module Group.
Record t : Type := mk {
  foodKey : string;
  avgConfidence : number;
  maxAreaRatio : number;
  count : nat
}.
End Group.

Definition average (xs : list number) : number :=
  div (total xs) (of_nat (List.length xs)).

Definition summarize (entry : string * list Reading.t) : Group.t :=
  let '(foodKey, detections) := entry in
  Group.mk foodKey
    (average (map Reading.confidence detections))
    (Math_max (map Reading.area_ratio detections))
    (List.length detections).

(** Detections to groups: the first loop of the handler and the head of the
    second. *)
Definition normalize (detections : list Detection.t) : Js (list Group.t) :=
  groupedDetections <- groupDetections detections ;;
  ret (map summarize (Obj.entries groupedDetections)).

(** ** Request handler *)

(** What [await req.json()] yields: [null], or a value with its [image]
    property ([Undefined] when there is none). *)
Inductive Body : Type :=
| NullBody
| ObjectBody (image : JsValue).

Module Request.
Record t : Type := mk {
  method : string;
  json : Js Body
}.
End Request.

(** One element of [foods] in the reply: [{ id, ...food }]. *)
Module Recognized.
Record t : Type := mk {
  id : string;
  food : FoodItem.t
}.
End Recognized.

(** The JSON object sent back; [None] is an absent property. *)
Module Payload.
Record t : Type := mk {
  success : option bool;
  foods : option (list Recognized.t);
  error : option string
}.
End Payload.

Module Response.
Record t : Type := mk {
  status : nat;
  body : option Payload.t
}.
End Response.

(** [foods.map((food, index) => ({ id: `food_${Date.now()}_${index}`,
    ...food }))], where [now index] is the clock read for element
    [index]. *)
Fixpoint withIds (now : nat -> N) (index : nat) (foods : list FoodItem.t)
  : list Recognized.t :=
  match foods with
  | [] => []
  | food :: rest =>
      Recognized.mk
        ("food_" ++ N_to_string (now index) ++ "_" ++ nat_to_string index)%string
        food
      :: withIds now (S index) rest
  end.

(** [error instanceof Error ? error.message : "Failed to analyze image"]. *)
Definition errorMessage (error : exn) : string :=
  match error with
  | Error message => message
  | NotAnError => "Failed to analyze image"
  end.

Section Handler.
(** The two functions the handler calls and the clock it reads. *)
Variable detect : JsValue -> Js (list Detection.t).
Variable estimate : string -> nat -> number -> Js FoodItem.t.
Variable now : nat -> N.

(** The callback of [Object.entries(groupedDetections).forEach]. *)
Definition addFood (foods : list FoodItem.t)
    (entry : string * list Reading.t) : Js (list FoodItem.t) :=
  let group := summarize entry in
  nutrition <- estimate (Group.foodKey group) (Group.count group)
                        (Group.maxAreaRatio group) ;;
  ret (foods ++ [FoodItem.set_confidence nutrition
                   (Group.avgConfidence group)]).

(** From the call of the detector to the list [foods]. *)
Definition recognizeFoods (image : JsValue) : Js (list FoodItem.t) :=
  detections <- detect image ;;
  groupedDetections <- groupDetections detections ;;
  forEach addFood (Obj.entries groupedDetections) [].

(** The body of the [try] in the handler. *)
Definition tryRecognize (req : Request.t) : Js Response.t :=
  body <- Request.json req ;;
  image <- match body with
           | NullBody =>
               raise (Error ("Cannot destructure property 'image' of "
                             ++ "'(intermediate value)' as it is null."))
           | ObjectBody image => ret image
           end ;;
  if negb (ToBoolean image) then
    ret (Response.mk 400
           (Some (Payload.mk None None (Some "No image provided"))))
  else
    foods <- recognizeFoods image ;;
    ret (Response.mk 200
           (Some (Payload.mk (Some true) (Some (withIds now 0 foods)) None))).

Definition handleWith (req : Request.t) : Js Response.t :=
  if Request.method req =? "OPTIONS" then ret (Response.mk 200 None)
  else
    catch (tryRecognize req)
      (fun error =>
         ret (Response.mk 500
                (Some (Payload.mk (Some false) None
                         (Some (errorMessage error)))))).
End Handler.

(** The handler passed to [serve]. *)
Definition handler (fetch : Fetch) (now : nat -> N) (req : Request.t)
  : Js Response.t :=
  handleWith (runCNNDetection fetch)
             (fun foodKey count maxAreaRatio =>
                ret (calculateNutrition foodKey count maxAreaRatio))
             now req.

(** The handler on a request that carries [image]: the pipeline from an
    image to a reply. *)
Definition recognize (fetch : Fetch) (now : nat -> N) (image : JsValue)
  : Js Response.t :=
  handler fetch now (Request.mk "POST" (ret (ObjectBody image))).

(** The item pushed to [foods] for one group: the estimate with its
    [confidence] overwritten. *)
Definition foodOfGroup (group : Group.t) : FoodItem.t :=
  FoodItem.set_confidence
    (calculateNutrition (Group.foodKey group) (Group.count group)
                        (Group.maxAreaRatio group))
    (Group.avgConfidence group).

(** ** The specification's description of the normalizer and the adapter *)

Module Spec.

(** The key of a label in the words of the specification: lowercase, trim,
    spaces to underscores. *)
Definition key (label : string) : string :=
  Str.replace_spaces (Str.trim (Str.toLowerCase label)).

(** Each key once, in the order of its first occurrence. *)
Fixpoint firstSeen (keys : list string) : list string :=
  match keys with
  | [] => []
  | k :: rest => k :: filter (fun k' => negb (k' =? k)) (firstSeen rest)
  end.

Section GroupBy.
Variable keyOf : string -> string.

Definition keyOfDetection (d : Detection.t) : string :=
  keyOf (Detection.food_name d).

(** The detections merged into the group of [k], in input order. *)
Definition members (k : string) (ds : list Detection.t) : list Detection.t :=
  filter (fun d => keyOfDetection d =? k) ds.

(** Mean confidence, largest area ratio and number of members. *)
Definition group (ds : list Detection.t) (k : string) : Group.t :=
  let ms := members k ds in
  Group.mk k
    (average (map Detection.confidence ms))
    (Math_max (map Detection.area_ratio ms))
    (List.length ms).

Definition groups (ds : list Detection.t) : list Group.t :=
  map (group ds) (firstSeen (map keyOfDetection ds)).
End GroupBy.

(** [normalize] as the specification words it. *)
Definition normalize : list Detection.t -> list Group.t := groups key.

(** The failures of the detection service the adapter is to recover from:
    network error, non-success status, a body that is not JSON or is
    [null], [success] falsy, [detections] missing. *)
Definition serviceFailed (outcome : Js Reply.t) : bool :=
  match outcome with
  | inl _ => true
  | inr response =>
      negb (Reply.ok response) ||
      match Reply.json response with
      | inl _ => true
      | inr ResultNull => true
      | inr (Result success detections) =>
          negb success ||
          match detections with None => true | Some _ => false end
      end
  end.

End Spec.

(** The object built by the first loop, in closed form. *)
Definition readingOf (d : Detection.t) : Reading.t :=
  Reading.mk (Detection.confidence d) (Detection.area_ratio d).

Definition grouping (ds : list Detection.t) : Grouped :=
  map (fun k => (k, map readingOf (Spec.members Str.toLowerCase k ds)))
      (Spec.firstSeen (map (Spec.keyOfDetection Str.toLowerCase) ds)).

(** Some label is, in lower case, the name of a member of
    [Object.prototype]. *)
Definition collides (ds : list Detection.t) : bool :=
  existsb (fun d => Obj.inherited (Str.toLowerCase (Detection.food_name d)))
          ds.

(** The groups of the lower-cased labels in the order of [Object.entries]:
    the second loop of the handler in closed form. *)
Definition groupsOf (ds : list Detection.t) : list Group.t :=
  map (Spec.group Str.toLowerCase ds)
      (entriesOrder
         (Spec.firstSeen (map (Spec.keyOfDetection Str.toLowerCase) ds))).

(** ** Numbers as integers *)

(** The integer a number denotes, when it denotes one. *)
Definition to_Z (x : number) : option Z :=
  match x with
  | S754_zero _ => Some 0%Z
  | S754_finite s m e =>
      if (0 <=? e)%Z then Some (cond_Zopp s (Zpos m * 2 ^ e))%Z
      else if (Zpos m mod 2 ^ (- e) =? 0)%Z
           then Some (cond_Zopp s (Zpos m / 2 ^ (- e)))%Z
           else None
  | _ => None
  end.

Definition option_Z_eqb (a b : option Z) : bool :=
  match a, b with
  | Some x, Some y => (x =? y)%Z
  | None, None => true
  | _, _ => false
  end.

(** Equality of representations. *)
Definition number_eqb (x y : number) : bool :=
  match x, y with
  | S754_zero a, S754_zero b => Bool.eqb a b
  | S754_infinity a, S754_infinity b => Bool.eqb a b
  | S754_nan, S754_nan => true
  | S754_finite a m e, S754_finite b m' e' =>
      Bool.eqb a b && Pos.eqb m m' && Z.eqb e e'
  | _, _ => false
  end.

(** [m * 2^k] on mantissas, for [0 <= k]. *)
Definition shift_left (m : positive) (k : Z) : positive :=
  match k with
  | Zpos p => Pos.iter xO m p
  | _ => m
  end.

(** ** Rounding of the estimates, decided by computation *)

(** The portion weights the estimator can reach for an entry of
    [NUTRITION_DATA], counts taken up to 200. *)
Definition reachable_grams (key : string) : list number :=
  match Obj.get key COUNTABLE_FOODS with
  | Some weight => map (fun count => mul (of_nat count) weight) (seq 0 201)
  | None => map snd PORTION_GRAMS
  end.

(** [r] is [value * grams / 100] rounded to one decimal: [value] is the
    literal [a/10], [grams] the integer [g], [r] the literal [n/10], and
    [n] is an integer nearest to [a * g / 100]. *)
Definition rounded_to_tenth (value grams r : number) : Prop :=
  exists a g n,
    value = dec a 10 /\ to_Z grams = Some g /\ r = dec n 10 /\
    (Z.abs (100 * n - a * g) <= 50)%Z.

(** [calories] is [floor (c * g / 100 + 1/2)] for the integers [c] of the
    table and [g] of the portion. *)
Definition rounded_half_up (calories_per_100g grams calories : number)
  : Prop :=
  exists c g,
    to_Z calories_per_100g = Some c /\ to_Z grams = Some g /\
    to_Z calories = Some ((2 * c * g + 100) / 200)%Z.

(** The integer [a] with [value] the literal [a/10]. *)
Definition tenths_of (value : number) : option Z :=
  match to_Z (Math_round (mul value (int 10))) with
  | Some a => if number_eqb value (dec a 10) then Some a else None
  | None => None
  end.

(** The integer [n] with [Math_round x = of_Z n]. *)
Definition rounded_integer (x : number) : option Z :=
  match to_Z (Math_round x) with
  | Some n => if number_eqb (Math_round x) (of_Z n) then Some n else None
  | None => None
  end.

(** The two properties above, decided on the estimator's expressions. *)
Definition calories_check (c g : Z) (calories_per_100g multiplier : number)
  : bool :=
  option_Z_eqb (to_Z (Math_round (mul calories_per_100g multiplier)))
               (Some ((2 * c * g + 100) / 200)%Z).

Definition macro_check (a g : Z) (value multiplier : number) : bool :=
  match rounded_integer (mul (mul value multiplier) (int 10)) with
  | Some n => (Z.abs (100 * n - a * g) <=? 50)%Z
  | None => false
  end.

Definition portion_check (nutrition : Profile.t) (c ap ac af : Z)
    (grams : number) : bool :=
  match to_Z grams with
  | Some g =>
      let multiplier := div grams (int 100) in
      calories_check c g (Profile.calories_per_100g nutrition) multiplier &&
      macro_check ap g (Profile.protein_g nutrition) multiplier &&
      macro_check ac g (Profile.carbs_g nutrition) multiplier &&
      macro_check af g (Profile.fat_g nutrition) multiplier
  | None => false
  end.

Definition entry_check (entry : string * Profile.t) : bool :=
  match to_Z (Profile.calories_per_100g (snd entry)),
        tenths_of (Profile.protein_g (snd entry)),
        tenths_of (Profile.carbs_g (snd entry)),
        tenths_of (Profile.fat_g (snd entry))
  with
  | Some c, Some ap, Some ac, Some af =>
      forallb (portion_check (snd entry) c ap ac af)
              (reachable_grams (fst entry))
  | _, _, _, _ => false
  end.

(** ** The client of the edge function *)

(** The JSON object of a reply as the client reads it: the properties
    [success], [foods] and [error], each possibly absent.  The elements of
    [foods] are passed through unread, so their type is left open. *)
Module Data.
Record t (A : Type) : Type := mk {
  success : option bool;
  foods : option (list A);
  error : option string
}.
Arguments mk {A}.
Arguments success {A}.
Arguments foods {A}.
Arguments error {A}.
End Data.

(** What [await response.json()] yields at the client: [null] or an
    object; any other JSON value reads like an object without the three
    properties. *)
Inductive Answer (A : Type) : Type :=
| AnswerNull
| AnswerObject (data : Data.t A).
Arguments AnswerNull {A}.
Arguments AnswerObject {A}.

(** The [Response] the client's [fetch] resolves to. *)
Module Http.
Record t (A : Type) : Type := mk {
  ok : bool;
  status : nat;
  json : Js (Answer A)
}.
Arguments mk {A}.
Arguments ok {A}.
Arguments status {A}.
Arguments json {A}.
End Http.

(** [interface FoodRecognitionResult]; [foods] is [None] when the reply
    said [success] without [foods]. *)
Module FoodRecognitionResult.
Record t (A : Type) : Type := mk {
  success : bool;
  foods : option (list A);
  processing_time_ms : number;
  error : option string
}.
Arguments mk {A}.
Arguments success {A}.
Arguments foods {A}.
Arguments processing_time_ms {A}.
Arguments error {A}.
End FoodRecognitionResult.

(** [value || fallback] on an optional string: absent and empty are
    falsy. *)
Definition orElse (value : option string) (fallback : string) : string :=
  match value with
  | Some s => if s =? "" then fallback else s
  | None => fallback
  end.

(** [!flag] on an optional boolean property. *)
Definition falsy (flag : option bool) : bool :=
  match flag with
  | Some true => false
  | _ => true
  end.

Section Client.
Context {A : Type}.
(** The outcome of reading the file, the [fetch] of the edge function, and
    the time elapsed since [startTime] as read after the fetch and in the
    [catch] block. *)
Variable fileToBase64 : Js string.
Variable fetch : string -> Js (Http.t A).
Variable processingTime : number.
Variable catchTime : number.

(** The body of the [try] in [recognizeFood]. *)
Definition tryRecognizeFood : Js (FoodRecognitionResult.t A) :=
  base64Image <- fileToBase64 ;;
  response <- fetch base64Image ;;
  if negb (Http.ok response) then
    errorData <- catch (Http.json response)
                       (fun _ => ret (AnswerObject (Data.mk None None None))) ;;
    match errorData with
    | AnswerNull =>
        raise (Error "Cannot read properties of null (reading 'error')")
    | AnswerObject errorData =>
        ret (FoodRecognitionResult.mk false (Some [])
               (Math_round processingTime)
               (Some (orElse (Data.error errorData)
                        ("Recognition failed: "
                         ++ nat_to_string (Http.status response))%string)))
    end
  else
    data <- Http.json response ;;
    match data with
    | AnswerNull =>
        raise (Error "Cannot read properties of null (reading 'success')")
    | AnswerObject data =>
        if falsy (Data.success data) then
          ret (FoodRecognitionResult.mk false (Some [])
                 (Math_round processingTime)
                 (Some (orElse (Data.error data) "Recognition failed")))
        else
          ret (FoodRecognitionResult.mk true (Data.foods data)
                 (Math_round processingTime) None)
    end.

Definition recognizeFood : Js (FoodRecognitionResult.t A) :=
  catch tryRecognizeFood
    (fun error =>
       ret (FoodRecognitionResult.mk false (Some []) (Math_round catchTime)
              (Some (errorMessage error)))).

(** The toast shown by [processImage]: its title and the number of items
    and the time it reports. *)
Inductive Toast : Type :=
| AnalysisComplete (items : nat) (processing_time_ms : number)
| AnalysisFailed.

(** [processImage] of the meal page, given the outcome of its call of
    [recognizeFood]: the new value of [recognizedFoods] ([None] for
    [undefined]) and the toast.  Reading [length] of [undefined] throws and
    is caught. *)
Definition processImage (result : Js (FoodRecognitionResult.t A))
    (recognizedFoods : option (list A)) : option (list A) * Toast :=
  match result with
  | inl _ => (recognizedFoods, AnalysisFailed)
  | inr result =>
      match FoodRecognitionResult.foods result with
      | Some foods =>
          (Some foods,
           AnalysisComplete (List.length foods)
                            (FoodRecognitionResult.processing_time_ms result))
      | None => (None, AnalysisFailed)
      end
  end.
End Client.

(** *** The edge function behind [fetch] *)

(** [response.ok]: the status is in the range 200-299. *)
Definition isOk (status : nat) : bool :=
  (200 <=? status)%nat && (status <=? 299)%nat.

Section Transport.
Context {A : Type}.
(** How a food of the reply reads at the client after the round trip
    through JSON. *)
Variable decode : Recognized.t -> A.

Definition dataOf (payload : Payload.t) : Data.t A :=
  Data.mk (Payload.success payload)
          (option_map (map decode) (Payload.foods payload))
          (Payload.error payload).

(** The reply of the edge function as the client's [fetch] delivers it; a
    reply without body cannot be read as JSON. *)
Definition httpOf (response : Response.t) : Http.t A :=
  Http.mk (isOk (Response.status response)) (Response.status response)
          (match Response.body response with
           | Some payload => ret (AnswerObject (dataOf payload))
           | None => raise (Error "Unexpected end of JSON input")
           end).

(** The client's [fetch] when [serve] is the function deployed at the
    address it posts [{ image: base64Image }] to. *)
Definition callEdgeFunction (serve : Request.t -> Js Response.t)
    (base64Image : string) : Js (Http.t A) :=
  response <- serve (Request.mk "POST" (ret (ObjectBody (Text base64Image)))) ;;
  ret (httpOf response).
End Transport.

(** ** Manual search *)

(** [interface RecognizedFood] of the client. *)
Module RecognizedFood.
Record t : Type := mk {
  id : string;
  name : string;
  confidence : number;
  portion_size : string;
  portion_grams : number;
  calories : number;
  protein : number;
  carbs : number;
  fat : number
}.

End RecognizedFood.

(** [Omit<RecognizedFood, 'id' | 'confidence'>]. *)
Module DatabaseFood.
Record t : Type := mk {
  name : string;
  portion_size : string;
  portion_grams : number;
  calories : number;
  protein : number;
  carbs : number;
  fat : number
}.
End DatabaseFood.

Definition FOOD_DATABASE : Obj.t DatabaseFood.t :=
  [
    ("grilled_chicken", DatabaseFood.mk "Grilled Chicken Breast" "1 piece (150g)" (int 150) (int 231) (int 43)
       (int 0) (int 5));
    ("rice", DatabaseFood.mk "Steamed White Rice" "1 cup (200g)" (int 200) (int 260) (int 5)
       (int 56) (tenths 5));
    ("salad", DatabaseFood.mk "Mixed Green Salad" "1 bowl (150g)" (int 150) (int 45) (int 2)
       (int 8) (tenths 5));
    ("pasta", DatabaseFood.mk "Pasta with Marinara" "1 plate (250g)" (int 250) (int 380) (int 12)
       (int 68) (int 8));
    ("pizza", DatabaseFood.mk "Margherita Pizza Slice" "2 slices (180g)" (int 180) (int 450) (int 18)
       (int 52) (int 20));
    ("burger", DatabaseFood.mk "Beef Burger" "1 burger (220g)" (int 220) (int 540) (int 28)
       (int 40) (int 30));
    ("salmon", DatabaseFood.mk "Grilled Salmon" "1 fillet (170g)" (int 170) (int 367) (int 34)
       (int 0) (int 22));
    ("eggs", DatabaseFood.mk "Scrambled Eggs" "2 eggs (120g)" (int 120) (int 182) (int 12)
       (int 2) (int 14));
    ("toast", DatabaseFood.mk "Whole Wheat Toast" "2 slices (60g)" (int 60) (int 138) (int 6)
       (int 24) (int 2));
    ("coffee", DatabaseFood.mk "Coffee with Milk" "1 cup (240ml)" (int 240) (int 45) (int 2)
       (int 6) (tenths 15));
    ("banana", DatabaseFood.mk "Banana" "1 medium (120g)" (int 120) (int 105) (tenths 13)
       (int 27) (tenths 4));
    ("apple", DatabaseFood.mk "Apple" "1 medium (180g)" (int 180) (int 95) (tenths 5)
       (int 25) (tenths 3));
    ("oatmeal", DatabaseFood.mk "Oatmeal with Berries" "1 bowl (250g)" (int 250) (int 280) (int 8)
       (int 48) (int 6));
    ("steak", DatabaseFood.mk "Grilled Steak" "1 piece (200g)" (int 200) (int 450) (int 46)
       (int 0) (int 28));
    ("sushi", DatabaseFood.mk "Sushi Rolls" "6 pieces (180g)" (int 180) (int 280) (int 12)
       (int 40) (int 6)) ].

(** [s.includes(search)]: [search] occurs in [s] as a substring. *)
Fixpoint includes (s search : string) : bool :=
  String.prefix search s ||
  match s with
  | EmptyString => false
  | String _ rest => includes rest search
  end.

(** [foods.map(([key, food]) => ({ id: generateId(), ...food,
    confidence: 1 }))], where [generateId index] is the identifier drawn
    for element [index]. *)
Fixpoint withGeneratedIds (generateId : nat -> string) (index : nat)
    (foods : list (string * DatabaseFood.t)) : list RecognizedFood.t :=
  match foods with
  | [] => []
  | (_, food) :: rest =>
      RecognizedFood.mk (generateId index) (DatabaseFood.name food) (int 1)
        (DatabaseFood.portion_size food) (DatabaseFood.portion_grams food)
        (DatabaseFood.calories food) (DatabaseFood.protein food)
        (DatabaseFood.carbs food) (DatabaseFood.fat food)
      :: withGeneratedIds generateId (S index) rest
  end.

Definition searchFoods (generateId : nat -> string) (query : string)
  : list RecognizedFood.t :=
  let lowerQuery := Str.toLowerCase query in
  withGeneratedIds generateId 0
    (filter (fun entry =>
               includes (Str.toLowerCase (DatabaseFood.name (snd entry)))
                        lowerQuery)
            (Obj.entries FOOD_DATABASE)).

(** ** The meal page *)

(** The value [handleSearch] stores in [searchResults]. *)
Definition handleSearch (generateId : nat -> string) (query : string)
  : list RecognizedFood.t :=
  if (1 <? String.length query)%nat then searchFoods generateId query
  else [].


Definition removeFood (id : string) (prev : list RecognizedFood.t)
  : list RecognizedFood.t :=
  filter (fun f => negb (RecognizedFood.id f =? id)) prev.

Definition updateFood (updatedFood : RecognizedFood.t)
    (prev : list RecognizedFood.t) : list RecognizedFood.t :=
  map (fun f =>
         if RecognizedFood.id f =? RecognizedFood.id updatedFood
         then updatedFood else f)
      prev.

Module Totals.
Record t : Type := mk {
  calories : number;
  protein : number;
  carbs : number;
  fat : number
}.
End Totals.



(** ** The allergy badges of the profile forms *)

(** The value [toggleAllergy] stores in the form field [allergies]. *)
Definition toggleAllergy (current : list string) (allergy : string)
  : list string :=
  if existsb (fun a => a =? allergy) current
  then filter (fun a => negb (a =? allergy)) current
  else current ++ [allergy].

(** * Properties *)

(** ** Lower case *)

Lemma lower_char_idem c : Str.lower_char (Str.lower_char c) = Str.lower_char c.
Proof. destruct c as [[] [] [] [] [] [] [] []]; reflexivity. Qed.

Lemma lower_char_space c : Str.is_space (Str.lower_char c) = Str.is_space c.
Proof. destruct c as [[] [] [] [] [] [] [] []]; reflexivity. Qed.

Lemma lower_char_not_upper c : Str.is_upper (Str.lower_char c) = false.
Proof. destruct c as [[] [] [] [] [] [] [] []]; reflexivity. Qed.

Lemma toLowerCase_idem s :
  Str.toLowerCase (Str.toLowerCase s) = Str.toLowerCase s.
Proof.
  induction s as [|c s IH]; simpl; [reflexivity|].
  now rewrite lower_char_idem, IH.
Qed.

Lemma toLowerCase_replace_spaces_from b s :
  Str.toLowerCase (Str.replace_spaces_from b s)
  = Str.replace_spaces_from b (Str.toLowerCase s).
Proof.
  revert b; induction s as [|c s IH]; intros b; simpl; [reflexivity|].
  rewrite lower_char_space.
  destruct (Str.is_space c), b; simpl; now rewrite ?IH.
Qed.

(** The characters of a string. *)
Lemma replace_spaces_from_no_space b s c :
  In c (list_ascii_of_string (Str.replace_spaces_from b s)) ->
  Str.is_space c = false.
Proof.
  revert b; induction s as [|c' s IH]; intros b; simpl; [tauto|].
  destruct (Str.is_space c') eqn:Hs.
  - destruct b; simpl; [apply IH|].
    intros [<- | H]; [reflexivity | exact (IH _ H)].
  - simpl. intros [<- | H]; [exact Hs | exact (IH _ H)].
Qed.

Lemma replace_spaces_from_fixed b s :
  (forall c, In c (list_ascii_of_string s) -> Str.is_space c = false) ->
  Str.replace_spaces_from b s = s.
Proof.
  revert b; induction s as [|c s IH]; intros b H; simpl; [reflexivity|].
  rewrite (H c (or_introl eq_refl)). f_equal. apply IH.
  intros c' Hc'. apply H. now right.
Qed.

Lemma toLowerCase_no_upper s c :
  In c (list_ascii_of_string (Str.toLowerCase s)) -> Str.is_upper c = false.
Proof.
  induction s as [|c' s IH]; simpl; [tauto|].
  intros [<- | H]; [apply lower_char_not_upper | exact (IH H)].
Qed.

(** ** Association lists *)

Section ObjFacts.
Context {V : Type}.
Variable f : string -> V.

Let tabulate (ks : list string) : Obj.t V := map (fun k => (k, f k)) ks.

Lemma get_tabulate k ks :
  Obj.get k (tabulate ks) = if existsb (String.eqb k) ks then Some (f k) else None.
Proof.
  induction ks as [|a ks IH]; simpl; [reflexivity|].
  rewrite (String.eqb_sym k a).
  destruct (String.eqb_spec a k) as [->|_]; simpl; auto.
Qed.

Lemma set_tabulate_fresh k v ks :
  existsb (String.eqb k) ks = false ->
  Obj.set k v (tabulate ks) = tabulate ks ++ [(k, v)].
Proof.
  induction ks as [|a ks IH]; simpl; [reflexivity|].
  rewrite (String.eqb_sym k a).
  destruct (a =? k); simpl; [discriminate|].
  intros H. now rewrite IH.
Qed.

Lemma get_fresh_last k v (o : Obj.t V) :
  Obj.get k o = None -> Obj.get k (o ++ [(k, v)]) = Some v.
Proof.
  induction o as [|[a w] o IH]; simpl.
  - now rewrite String.eqb_refl.
  - destruct (a =? k); [discriminate|auto].
Qed.

Lemma set_fresh_last k v w (o : Obj.t V) :
  Obj.get k o = None -> Obj.set k w (o ++ [(k, v)]) = o ++ [(k, w)].
Proof.
  induction o as [|[a u] o IH]; simpl.
  - now rewrite String.eqb_refl.
  - destruct (a =? k); [discriminate|]. intros H. now rewrite IH.
Qed.

Lemma set_tabulate_present k v ks :
  NoDup ks -> In k ks ->
  Obj.set k v (tabulate ks)
  = map (fun k' => (k', if k' =? k then v else f k')) ks.
Proof.
  induction 1 as [|a ks Ha Hnd IH]; simpl; [tauto|].
  destruct (String.eqb_spec a k) as [->|Hne].
  - intros _. f_equal. apply map_ext_in. intros k' Hk'.
    destruct (String.eqb_spec k' k) as [->|_]; [contradiction|reflexivity].
  - intros [->|Hin]; [contradiction|]. now rewrite IH.
Qed.

Lemma member_tabulate k ks :
  Obj.member k (tabulate ks)
  = if existsb (String.eqb k) ks then Obj.Own (f k)
    else if Obj.inherited k then Obj.Inherited else Obj.Missing.
Proof.
  unfold Obj.member. rewrite get_tabulate.
  now destruct (existsb (String.eqb k) ks).
Qed.

Let unit_entry (k : string) : string * unit := (k, tt).
Let retag (e : N * (string * unit)) : N * (string * V) :=
  (fst e, (fst (snd e), f (fst (snd e)))).

Lemma insert_tabulate n k l :
  Obj.insert n (k, f k) (map retag l) = map retag (Obj.insert n (k, tt) l).
Proof.
  induction l as [|[m [k' []]] l IH]; simpl; [reflexivity|].
  destruct (n <? m)%N; simpl; [reflexivity|]. now rewrite IH.
Qed.

Lemma indexed_tabulate ks :
  Obj.indexed (tabulate ks) = map retag (Obj.indexed (map unit_entry ks)).
Proof.
  induction ks as [|k ks IH]; simpl; [reflexivity|].
  destruct (Obj.array_index k); [| exact IH].
  now rewrite IH, insert_tabulate.
Qed.

Lemma named_tabulate ks :
  Obj.named (tabulate ks)
  = map (fun e => (fst e, f (fst e))) (Obj.named (map unit_entry ks)).
Proof.
  unfold Obj.named. induction ks as [|k ks IH]; simpl; [reflexivity|].
  destruct (Obj.array_index k); simpl; now rewrite IH.
Qed.

(** [Object.entries] of a tabulated function lists the keys in the order
    [entriesOrder]. *)
Lemma entries_tabulate ks :
  Obj.entries (tabulate ks) = tabulate (entriesOrder ks).
Proof.
  unfold entriesOrder. fold unit_entry. unfold Obj.entries.
  rewrite indexed_tabulate, named_tabulate. unfold tabulate.
  rewrite !map_app, !map_map. reflexivity.
Qed.
End ObjFacts.

Lemma member_own {V : Type} key (o : Obj.t V) v :
  Obj.get key o = Some v -> Obj.member key o = Obj.Own v.
Proof. unfold Obj.member. now intros ->. Qed.

Lemma member_not_own {V : Type} key (o : Obj.t V) :
  Obj.get key o = None ->
  Obj.member key o = if Obj.inherited key then Obj.Inherited else Obj.Missing.
Proof. unfold Obj.member. now intros ->. Qed.


(** ** The order of [Object.entries] *)

Section EntriesFacts.
Context {V : Type}.

Lemma insert_perm n (e : string * V) l :
  Permutation (Obj.insert n e l) ((n, e) :: l).
Proof.
  induction l as [|[m e'] l IH]; simpl; [reflexivity|].
  destruct (n <? m)%N; [reflexivity|].
  rewrite IH. apply perm_swap.
Qed.

Lemma entries_perm (o : Obj.t V) : Permutation (Obj.entries o) o.
Proof.
  unfold Obj.entries, Obj.named.
  induction o as [|[k v] o IH]; simpl; [reflexivity|].
  destruct (Obj.array_index k) as [n|]; simpl.
  - rewrite insert_perm. simpl. now constructor.
  - rewrite <- Permutation_middle. now constructor.
Qed.

Lemma entries_named (o : Obj.t V) :
  (forall k v, In (k, v) o -> Obj.array_index k = None) ->
  Obj.entries o = o.
Proof.
  intros H.
  assert (E : Obj.indexed o = [] /\ Obj.named o = o).
  { unfold Obj.named. induction o as [|[k v] o IH]; simpl; [now split|].
    rewrite (H k v (or_introl eq_refl)). simpl.
    destruct IH as [Ei En];
      [intros k' v' Hin; apply (H k' v'); now right|].
    now rewrite Ei, En. }
  unfold Obj.entries. destruct E as [-> ->]. reflexivity.
Qed.
End EntriesFacts.

Lemma entriesOrder_perm ks : Permutation (entriesOrder ks) ks.
Proof.
  unfold entriesOrder.
  rewrite (Permutation_map fst (entries_perm (map (fun k => (k, tt)) ks))).
  rewrite map_map. simpl. now rewrite map_id.
Qed.

Lemma entriesOrder_In k ks : In k (entriesOrder ks) <-> In k ks.
Proof.
  split; apply Permutation_in;
    [apply entriesOrder_perm | symmetry; apply entriesOrder_perm].
Qed.

Lemma entriesOrder_NoDup ks : NoDup ks -> NoDup (entriesOrder ks).
Proof.
  apply Permutation_NoDup. symmetry. apply entriesOrder_perm.
Qed.

Lemma entriesOrder_length ks : List.length (entriesOrder ks) = List.length ks.
Proof. apply Permutation_length, entriesOrder_perm. Qed.

(** Keys that are not array indices come in the order of their creation. *)
Lemma entriesOrder_named ks :
  (forall k, In k ks -> Obj.array_index k = None) -> entriesOrder ks = ks.
Proof.
  intros H. unfold entriesOrder. rewrite entries_named.
  - rewrite map_map. simpl. apply map_id.
  - intros k [] Hin. apply in_map_iff in Hin.
    destruct Hin as (k' & [= <-] & Hk'). now apply H.
Qed.

(** ** First occurrences *)

Lemma firstSeen_In k l : In k (Spec.firstSeen l) <-> In k l.
Proof.
  induction l as [|a l IH]; simpl; [tauto|]. split.
  - intros [->|H]; auto. apply filter_In in H. right. now apply IH.
  - intros [->|H]; auto.
    destruct (String.eqb_spec k a) as [->|Hne]; auto.
    right. apply filter_In. split; [now apply IH|].
    now rewrite (proj2 (String.eqb_neq k a) Hne).
Qed.

Lemma firstSeen_NoDup l : NoDup (Spec.firstSeen l).
Proof.
  induction l as [|a l IH]; simpl; constructor.
  - intros H. apply filter_In in H. rewrite String.eqb_refl in H.
    now destruct H.
  - now apply NoDup_filter.
Qed.

Lemma existsb_eqb_In k l : existsb (String.eqb k) l = true <-> In k l.
Proof.
  rewrite existsb_exists. split.
  - intros [x [Hx E]]. apply String.eqb_eq in E. now subst.
  - intros H. exists k. split; auto. apply String.eqb_refl.
Qed.

Lemma existsb_firstSeen k l :
  existsb (String.eqb k) (Spec.firstSeen l) = existsb (String.eqb k) l.
Proof.
  apply eq_true_iff_eq. rewrite !existsb_eqb_In. apply firstSeen_In.
Qed.

Lemma firstSeen_snoc k l :
  Spec.firstSeen (l ++ [k])
  = if existsb (String.eqb k) l then Spec.firstSeen l
    else Spec.firstSeen l ++ [k].
Proof.
  induction l as [|a l IH]; simpl; [reflexivity|].
  rewrite IH. destruct (String.eqb_spec k a) as [->|Hne]; simpl.
  - destruct (existsb (String.eqb a) l); [reflexivity|].
    rewrite filter_app. simpl. rewrite String.eqb_refl. simpl.
    now rewrite app_nil_r.
  - destruct (existsb (String.eqb k) l); [reflexivity|].
    rewrite filter_app. simpl.
    now rewrite (proj2 (String.eqb_neq k a) Hne).
Qed.

(** ** The first loop builds [grouping] *)

Section Grouping.
Let keyOf := Spec.keyOfDetection Str.toLowerCase.
Let membersOf := Spec.members Str.toLowerCase.

Lemma members_snoc k pre d :
  membersOf k (pre ++ [d])
  = membersOf k pre ++ (if keyOf d =? k then [d] else []).
Proof.
  unfold membersOf, Spec.members. rewrite filter_app. simpl.
  fold keyOf. now destruct (keyOf d =? k).
Qed.

Lemma members_absent k ds :
  existsb (String.eqb k) (map keyOf ds) = false -> membersOf k ds = [].
Proof.
  induction ds as [|d ds IH]; simpl; [reflexivity|].
  fold keyOf. rewrite (String.eqb_sym k (keyOf d)).
  destruct (keyOf d =? k); simpl; [discriminate|exact IH].
Qed.

Lemma collides_app ds ds' :
  collides (ds ++ ds') = collides ds || collides ds'.
Proof. unfold collides. apply existsb_app. Qed.

Lemma collides_key pre k :
  collides pre = false -> Obj.inherited k = true ->
  existsb (String.eqb k) (map keyOf pre) = false.
Proof.
  intros Hpre Hk.
  destruct (existsb (String.eqb k) (map keyOf pre)) eqn:E; [| reflexivity].
  apply (proj1 (existsb_eqb_In _ _)), in_map_iff in E.
  destruct E as (d & Ed & Hd).
  assert (Hc : collides pre = true).
  { unfold collides. apply existsb_exists. exists d. split; [exact Hd|].
    change (Str.toLowerCase (Detection.food_name d)) with (keyOf d).
    now rewrite Ed. }
  congruence.
Qed.

Lemma addDetection_grouping pre d :
  Obj.inherited (keyOf d) = false ->
  addDetection (grouping pre) d = inr (grouping (pre ++ [d])).
Proof.
  intros Hown. unfold addDetection, grouping.
  fold keyOf membersOf. change (Str.toLowerCase (Detection.food_name d)) with (keyOf d).
  set (k := keyOf d). fold k in Hown.
  rewrite map_app. change (map keyOf [d]) with [k]. rewrite firstSeen_snoc.
  rewrite (member_tabulate (fun k => map readingOf (membersOf k pre))).
  rewrite existsb_firstSeen.
  destruct (existsb (String.eqb k) (map keyOf pre)) eqn:E.
  - rewrite (member_tabulate (fun k => map readingOf (membersOf k pre))).
    rewrite existsb_firstSeen, E. simpl. f_equal.
    rewrite set_tabulate_present.
    + apply map_ext. intros k'. f_equal.
      rewrite members_snoc, map_app. fold k.
      rewrite (String.eqb_sym k' k).
      destruct (String.eqb_spec k k') as [->|_]; simpl.
      * reflexivity.
      * now rewrite app_nil_r.
    + apply firstSeen_NoDup.
    + apply (proj2 (firstSeen_In _ _)). now apply (proj1 (existsb_eqb_In _ _)).
  - rewrite Hown.
    rewrite set_tabulate_fresh by now rewrite existsb_firstSeen.
    assert (Hnone : Obj.get k
              (map (fun k0 => (k0, map readingOf (membersOf k0 pre)))
                   (Spec.firstSeen (map keyOf pre))) = None).
    { rewrite (get_tabulate (fun k => map readingOf (membersOf k pre))).
      now rewrite existsb_firstSeen, E. }
    unfold Obj.member.
    rewrite get_fresh_last by exact Hnone. simpl. f_equal.
    rewrite set_fresh_last by exact Hnone.
    rewrite map_app. simpl. f_equal.
    + apply map_ext_in. intros k' Hk'. f_equal.
      rewrite members_snoc. fold k.
      destruct (String.eqb_spec k k') as [Heq|_].
      * rewrite <- Heq in Hk'.
        apply (proj1 (firstSeen_In _ _)) in Hk'.
        apply (proj2 (existsb_eqb_In _ _)) in Hk'. congruence.
      * now rewrite app_nil_r.
    + rewrite members_snoc. fold k. rewrite String.eqb_refl.
      now rewrite (members_absent k pre E).
Qed.

(** A label that is the name of a member of [Object.prototype] finds that
    member, which has no [push]. *)
Lemma addDetection_collides pre d :
  collides pre = false -> Obj.inherited (keyOf d) = true ->
  addDetection (grouping pre) d = inl pushIsNotAFunction.
Proof.
  intros Hpre Hk. unfold addDetection, grouping.
  fold keyOf membersOf. change (Str.toLowerCase (Detection.food_name d)) with (keyOf d).
  rewrite !(member_tabulate (fun k => map readingOf (membersOf k pre))).
  rewrite existsb_firstSeen, (collides_key pre _ Hpre Hk), Hk.
  rewrite (member_tabulate (fun k => map readingOf (membersOf k pre))).
  rewrite existsb_firstSeen, (collides_key pre _ Hpre Hk), Hk.
  reflexivity.
Qed.

Lemma forEach_addDetection ds pre :
  collides pre = false ->
  forEach addDetection ds (grouping pre)
  = if collides ds then inl pushIsNotAFunction
    else inr (grouping (pre ++ ds)).
Proof.
  revert pre. induction ds as [|d ds IH]; intros pre Hpre; simpl.
  - now rewrite app_nil_r.
  - change (Str.toLowerCase (Detection.food_name d)) with (keyOf d).
    destruct (Obj.inherited (keyOf d)) eqn:Hk; simpl.
    + now rewrite (addDetection_collides pre d Hpre Hk).
    + rewrite (addDetection_grouping pre d Hk). simpl.
      rewrite IH.
      * now rewrite <- app_assoc.
      * rewrite collides_app, Hpre. simpl.
        change (Str.toLowerCase (Detection.food_name d)) with (keyOf d).
        now rewrite Hk.
Qed.

Lemma groupDetections_grouping ds :
  groupDetections ds
  = if collides ds then inl pushIsNotAFunction else inr (grouping ds).
Proof. exact (forEach_addDetection ds [] eq_refl). Qed.
End Grouping.

Lemma summarize_grouping ds :
  map summarize (Obj.entries (grouping ds)) = groupsOf ds.
Proof.
  unfold grouping, groupsOf.
  rewrite (entries_tabulate
             (fun k => map readingOf (Spec.members Str.toLowerCase k ds))).
  rewrite map_map.
  apply map_ext. intros k. unfold summarize, Spec.group, readingOf.
  rewrite !map_map, length_map. reflexivity.
Qed.

(** The normalizer in closed form: it throws when a label collides with a
    member of [Object.prototype], and returns the groups otherwise. *)
Lemma normalize_groups ds :
  normalize ds
  = if collides ds then inl pushIsNotAFunction else inr (groupsOf ds).
Proof.
  unfold normalize. rewrite groupDetections_grouping.
  destruct (collides ds); simpl; [reflexivity|].
  now rewrite summarize_grouping.
Qed.

Lemma normalize_returns ds gs :
  normalize ds = inr gs -> collides ds = false /\ gs = groupsOf ds.
Proof.
  rewrite normalize_groups. destruct (collides ds); [discriminate|].
  now intros [= <-].
Qed.


(** ** [Math.max] does not depend on the order of its arguments *)

Ltac split_compare :=
  repeat match goal with
  | |- context [Z.compare ?a ?b] =>
      destruct (Z.compare_spec a b); simpl; subst
  | |- context [Pos.compare_cont Eq ?a ?b] =>
      change (Pos.compare_cont Eq a b) with (Pos.compare a b);
      destruct (Pos.compare_spec a b); simpl; subst
  end.

Lemma max_step_swap h x y :
  max_step (max_step h x) y = max_step (max_step h y) x.
Proof.
  destruct h as [[]|[]| |[] mh eh], x as [[]|[]| |[] mx ex],
           y as [[]|[]| |[] my ey];
    unfold max_step, lt, SFltb, SFcompare; simpl; try reflexivity;
    split_compare; try reflexivity; try lia.
Qed.

Lemma fold_max_step_perm xs ys :
  Permutation xs ys ->
  forall h, fold_left max_step xs h = fold_left max_step ys h.
Proof.
  induction 1 as [|x xs ys _ IH|x y xs|xs ys zs _ IH1 _ IH2]; intros h; simpl.
  - reflexivity.
  - apply IH.
  - now rewrite max_step_swap.
  - now rewrite IH1.
Qed.

Lemma existsb_perm {A : Type} (p : A -> bool) xs ys :
  Permutation xs ys -> existsb p xs = existsb p ys.
Proof.
  induction 1 as [|x xs ys _ IH|x y xs|xs ys zs _ IH1 _ IH2]; simpl.
  - reflexivity.
  - now rewrite IH.
  - now destruct (p x), (p y).
  - congruence.
Qed.

Lemma Math_max_perm xs ys :
  Permutation xs ys -> Math_max xs = Math_max ys.
Proof.
  intros H. unfold Math_max.
  rewrite (existsb_perm is_nan xs ys H).
  now rewrite (fold_max_step_perm xs ys H).
Qed.

Lemma filter_perm {A : Type} (p : A -> bool) xs ys :
  Permutation xs ys -> Permutation (filter p xs) (filter p ys).
Proof.
  induction 1 as [|x xs ys _ IH|x y xs|xs ys zs _ IH1 _ IH2]; simpl.
  - constructor.
  - destruct (p x); [now constructor|exact IH].
  - destruct (p x), (p y); try reflexivity. constructor.
  - now transitivity (filter p ys).
Qed.

(** ** Groups of a shuffled list *)

Lemma group_of_key ds g :
  In g (groupsOf ds) ->
  g = Spec.group Str.toLowerCase ds (Group.foodKey g) /\
  In (Group.foodKey g) (map (Spec.keyOfDetection Str.toLowerCase) ds).
Proof.
  unfold groupsOf. intros H. apply in_map_iff in H.
  destruct H as [k [<- Hk]]. simpl. split; [reflexivity|].
  now apply (proj1 (firstSeen_In _ _)), (proj1 (entriesOrder_In _ _)).
Qed.

Lemma key_has_group ds k :
  In k (map (Spec.keyOfDetection Str.toLowerCase) ds) ->
  In (Spec.group Str.toLowerCase ds k) (groupsOf ds).
Proof.
  intros H. unfold groupsOf. apply in_map.
  now apply (proj2 (entriesOrder_In _ _)), (proj2 (firstSeen_In _ _)).
Qed.

Lemma key_has_member ds k :
  In k (map (Spec.keyOfDetection Str.toLowerCase) ds) ->
  Spec.members Str.toLowerCase k ds <> [].
Proof.
  intros Hk E. apply in_map_iff in Hk. destruct Hk as (d & Ek & Hd).
  assert (Hm : In d (Spec.members Str.toLowerCase k ds)).
  { unfold Spec.members. apply filter_In. split; [exact Hd|].
    rewrite Ek. apply String.eqb_refl. }
  rewrite E in Hm. destruct Hm.
Qed.

Lemma group_perm keyOf ds ds' k :
  Permutation ds ds' ->
  Group.count (Spec.group keyOf ds' k) = Group.count (Spec.group keyOf ds k) /\
  Group.maxAreaRatio (Spec.group keyOf ds' k)
  = Group.maxAreaRatio (Spec.group keyOf ds k).
Proof.
  intros H. simpl.
  assert (Hm : Permutation (Spec.members keyOf k ds') (Spec.members keyOf k ds)).
  { apply filter_perm. now symmetry. }
  split.
  - now apply Permutation_length.
  - apply Math_max_perm. now apply Permutation_map.
Qed.

Lemma collides_perm ds ds' : Permutation ds ds' -> collides ds' = collides ds.
Proof. intros H. unfold collides. symmetry. now apply existsb_perm. Qed.



(** ** The normalizer (claims C2 and C9) *)

Lemma group_fields ds gs g :
  normalize ds = inr gs -> In g gs ->
  let members := Spec.members Str.toLowerCase (Group.foodKey g) ds in
  members <> [] /\
  Group.avgConfidence g
  = div (fold_left add (map Detection.confidence members) (of_Z 0))
        (of_nat (List.length members)) /\
  Group.maxAreaRatio g = Math_max (map Detection.area_ratio members) /\
  Group.count g = List.length members.
Proof.
  intros Hn Hg. apply normalize_returns in Hn. destruct Hn as [_ ->].
  apply group_of_key in Hg. destruct Hg as [Eg Hk].
  split; [now apply key_has_member|].
  split; [| split]; rewrite Eg at 1; [| reflexivity | reflexivity].
  unfold Spec.group, Group.avgConfidence, average, total.
  now rewrite length_map.
Qed.




(** C9, as stated, fails for [avg_confidence]: binary64 addition is not
    associative, so summing the same three confidences in another order can
    change the last bits of the mean.  For 0.1, 0.2, 0.3 the mean is
    0.20000000000000004 and in reverse order 0.19999999999999998. *)
Lemma shuffled_average_differs :
  let ds  := [ Detection.mk "Idli" (dec 1 10) (dec 15 100);
               Detection.mk "Idli" (dec 2 10) (dec 20 100);
               Detection.mk "Idli" (dec 3 10) (dec 25 100) ] in
  let ds' := [ Detection.mk "Idli" (dec 3 10) (dec 25 100);
               Detection.mk "Idli" (dec 2 10) (dec 20 100);
               Detection.mk "Idli" (dec 1 10) (dec 15 100) ] in
  Permutation ds ds' /\
  exists g g',
    normalize ds = inr [g] /\ normalize ds' = inr [g'] /\
    Group.foodKey g = Group.foodKey g' /\
    Group.maxAreaRatio g = Group.maxAreaRatio g' /\
    Group.avgConfidence g = S754_finite false 7205759403792795 (-55) /\
    Group.avgConfidence g' = S754_finite false 7205759403792793 (-55) /\
    Group.avgConfidence g <> Group.avgConfidence g'.
Proof.
  split.
  - apply (Permutation_rev
             [ Detection.mk "Idli" (dec 1 10) (dec 15 100);
               Detection.mk "Idli" (dec 2 10) (dec 20 100);
               Detection.mk "Idli" (dec 3 10) (dec 25 100) ]).
  - eexists. eexists.
    split; [vm_compute; reflexivity|].
    split; [vm_compute; reflexivity|].
    split; [reflexivity|].
    split; [reflexivity|].
    split; [reflexivity|].
    split; [reflexivity|].
    vm_compute. discriminate.
Qed.

(** C9, amended: [normalize] returns for a list of detections exactly when
    it returns for a permutation of it, and then each group of the one has
    a group of the other with the same key, the same count and the same
    [max_area_ratio]; the two also have the same [avg_confidence] when the
    members of the group come in the same order in both lists. *)
Theorem normalize_permutation ds ds' :
  Permutation ds ds' ->
  ((exists gs, normalize ds = inr gs) <->
   (exists gs', normalize ds' = inr gs')) /\
  forall gs gs',
    normalize ds = inr gs -> normalize ds' = inr gs' ->
    forall g, In g gs ->
      exists g', In g' gs' /\
        Group.foodKey g' = Group.foodKey g /\
        Group.count g' = Group.count g /\
        Group.maxAreaRatio g' = Group.maxAreaRatio g /\
        (Spec.members Str.toLowerCase (Group.foodKey g) ds'
         = Spec.members Str.toLowerCase (Group.foodKey g) ds ->
         Group.avgConfidence g' = Group.avgConfidence g).
Proof.
  intros H. split.
  - rewrite !normalize_groups, (collides_perm ds ds' H).
    destruct (collides ds); split; intros [gs E];
      try discriminate E; eauto.
  - intros gs gs' Hn Hn'.
    apply normalize_returns in Hn. destruct Hn as [_ ->].
    apply normalize_returns in Hn'. destruct Hn' as [_ ->].
    intros g Hg. apply group_of_key in Hg. destruct Hg as [Eg Hk].
    exists (Spec.group Str.toLowerCase ds' (Group.foodKey g)).
    split.
    + apply key_has_group.
      apply (Permutation_in _ (Permutation_map _ H) Hk).
    + destruct (group_perm Str.toLowerCase ds ds' (Group.foodKey g) H)
        as [Hc Hm].
      rewrite <- Eg in Hc, Hm.
      split; [reflexivity|]. split; [exact Hc|]. split; [exact Hm|].
      intros Hsame. rewrite Eg at 2. simpl. now rewrite Hsame.
Qed.

Lemma normalize_permutation_witness :
  let ds  := [ Detection.mk "Idli" (dec 92 100) (dec 15 100);
               Detection.mk "Sambar" (dec 87 100) (dec 35 100);
               Detection.mk "Idli" (dec 88 100) (dec 20 100) ] in
  let ds' := [ Detection.mk "Sambar" (dec 87 100) (dec 35 100);
               Detection.mk "Idli" (dec 88 100) (dec 20 100);
               Detection.mk "Idli" (dec 92 100) (dec 15 100) ] in
  let idli := Group.mk "idli" (dec 90 100) (dec 20 100) 2 in
  let sambar := Group.mk "sambar" (dec 87 100) (dec 35 100) 1 in
  Permutation ds ds' /\
  normalize ds = inr [idli; sambar] /\
  normalize ds' = inr [sambar; idli] /\
  In idli [idli; sambar] /\
  exists g', In g' [sambar; idli] /\
    Group.foodKey g' = "idli" /\
    Group.count g' = 2%nat /\
    Group.maxAreaRatio g' = dec 20 100.
Proof.
  intros ds ds' idli sambar.
  assert (H : Permutation ds ds').
  { unfold ds, ds'.
    apply (Permutation_cons_app [_; _] []). simpl. apply Permutation_refl. }
  assert (Hn : normalize ds = inr [idli; sambar]) by (vm_compute; reflexivity).
  assert (Hn' : normalize ds' = inr [sambar; idli])
    by (vm_compute; reflexivity).
  assert (Hin : In idli [idli; sambar]) by now left.
  split; [exact H|]. split; [exact Hn|]. split; [exact Hn'|].
  split; [exact Hin|].
  destruct (proj2 (normalize_permutation ds ds' H) _ _ Hn Hn' idli Hin)
    as (g' & Hg' & Hkey & Hcount & Hmax & _).
  exists g'. split; [exact Hg'|]. split; [exact Hkey|].
  split; [exact Hcount | exact Hmax].
Defined.

(** ** The portion model (claims C6 and C7) *)

Lemma le_not_lt c r : le c r = true -> lt r c = false.
Proof.
  destruct c as [[]|[]| |[] mc ec], r as [[]|[]| |[] mr er];
    unfold le, lt, SFleb, SFltb, SFcompare; simpl;
    try reflexivity; try discriminate;
    split_compare; try reflexivity; try discriminate; lia.
Qed.

Lemma portion_area_based key count areaRatio :
  truthy_at key COUNTABLE_FOODS = false ->
  portion key count areaRatio
  = (number_at (getPortionFromArea areaRatio) PORTION_GRAMS,
     (getPortionFromArea areaRatio ++ " portion")%string).
Proof. intros H. unfold portion. now rewrite H. Qed.

(** C6: [getPortionFromArea] answers Small below 0.10, Medium from 0.10 up
    to but not including 0.25, Large from 0.25 up to but not including
    0.50 and Very Large from 0.50 on, for every number and so for every
    ratio in [0,1]; a ratio on a boundary goes to the higher bucket.  For a
    food that is not countable the grams are those of the bucket in
    [PORTION_GRAMS], 75, 100, 150 and 200, and the description is the
    bucket followed by " portion". *)
Theorem getPortionFromArea_buckets (ratio : number) :
  (lt ratio (dec 10 100) = true -> getPortionFromArea ratio = "Small") /\
  (le (dec 10 100) ratio = true -> lt ratio (dec 25 100) = true ->
   getPortionFromArea ratio = "Medium") /\
  (le (dec 25 100) ratio = true -> lt ratio (dec 50 100) = true ->
   getPortionFromArea ratio = "Large") /\
  (le (dec 50 100) ratio = true -> getPortionFromArea ratio = "Very Large") /\
  getPortionFromArea (dec 10 100) = "Medium" /\
  getPortionFromArea (dec 99 1000) = "Small" /\
  (forall key count,
     truthy_at key COUNTABLE_FOODS = false ->
     portion key count ratio
     = (number_at (getPortionFromArea ratio) PORTION_GRAMS,
        (getPortionFromArea ratio ++ " portion")%string)) /\
  number_at "Small" PORTION_GRAMS = int 75 /\
  number_at "Medium" PORTION_GRAMS = int 100 /\
  number_at "Large" PORTION_GRAMS = int 150 /\
  number_at "Very Large" PORTION_GRAMS = int 200.
Proof.
  unfold getPortionFromArea.
  split; [intros H; now rewrite H|].
  split; [intros H1 H2; now rewrite (le_not_lt _ _ H1), H2|].
  assert (below : forall a b, le a ratio = true -> lt b a = true ->
                              lt ratio b = false).
  { intros a b Ha Hb. destruct (lt ratio b) eqn:E; [|reflexivity].
    exfalso. revert Ha Hb E.
    destruct a as [[]|[]| |[] ma ea], b as [[]|[]| |[] mb eb],
             ratio as [[]|[]| |[] mr er];
      unfold le, lt, SFleb, SFltb, SFcompare; simpl;
      try discriminate; split_compare; try discriminate; lia. }
  split.
  { intros H1 H2.
    rewrite (below (dec 25 100) (dec 10 100) H1 eq_refl).
    now rewrite (le_not_lt _ _ H1), H2. }
  split.
  { intros H1.
    rewrite (below (dec 50 100) (dec 10 100) H1 eq_refl).
    rewrite (below (dec 50 100) (dec 25 100) H1 eq_refl).
    now rewrite (le_not_lt _ _ H1). }
  split; [vm_compute; reflexivity|].
  split; [vm_compute; reflexivity|].
  split; [intros key count H; now apply portion_area_based|].
  repeat split.
Qed.

Lemma getPortionFromArea_buckets_witness :
  le (dec 25 100) (dec 3 10) = true /\
  lt (dec 3 10) (dec 50 100) = true /\
  getPortionFromArea (dec 3 10) = "Large".
Proof.
  split; [reflexivity|]. split; [reflexivity|].
  apply (proj1 (proj2 (proj2 (getPortionFromArea_buckets (dec 3 10)))));
    reflexivity.
Defined.

(** ** Exact products of integers *)

Lemma iter_xO_digits m p :
  digits2_pos (Pos.iter xO m p) = (digits2_pos m + p)%positive.
Proof.
  induction p as [|p IH] using Pos.peano_ind.
  - simpl. now rewrite Pos.add_1_r.
  - rewrite Pos.iter_succ. simpl. rewrite IH. now rewrite Pos.add_succ_r.
Qed.

Lemma digits_shift_left m k :
  (0 <= k)%Z ->
  Zpos (digits2_pos (shift_left m k)) = (Zpos (digits2_pos m) + k)%Z.
Proof.
  destruct k as [|p|p]; simpl; intros H; try lia.
  now rewrite iter_xO_digits.
Qed.

Lemma shift_left_Z m k :
  (0 <= k)%Z -> Zpos (shift_left m k) = (Zpos m * 2 ^ k)%Z.
Proof.
  destruct k as [|p|p]; simpl shift_left; intros H; try lia.
  clear H. induction p as [|p IH] using Pos.peano_ind.
  - simpl Pos.iter. rewrite Pos2Z.inj_xO. change (2 ^ 1)%Z with 2%Z. ring.
  - rewrite Pos.iter_succ, Pos2Z.inj_xO, IH, Pos2Z.inj_succ.
    rewrite Z.pow_succ_r by lia. ring.
Qed.

Lemma shift_left_add m j k :
  (0 <= j)%Z -> (0 <= k)%Z ->
  shift_left (shift_left m j) k = shift_left m (j + k).
Proof.
  intros Hj Hk. apply Pos2Z.inj.
  rewrite !shift_left_Z by lia. rewrite Z.pow_add_r by lia. ring.
Qed.

Lemma shift_left_mul a b j k :
  (0 <= j)%Z -> (0 <= k)%Z ->
  (shift_left a j * shift_left b k)%positive = shift_left (a * b) (j + k).
Proof.
  intros Hj Hk. apply Pos2Z.inj.
  rewrite Pos2Z.inj_mul, !shift_left_Z by lia.
  rewrite Pos2Z.inj_mul, Z.pow_add_r by lia. ring.
Qed.

Lemma iter_pos_iter {A : Type} (f : A -> A) p x :
  iter_pos f p x = Pos.iter f x p.
Proof.
  revert x. induction p as [p IH|p IH|]; intros x; simpl.
  - rewrite !IH. now rewrite <- !Pos.iter_swap.
  - now rewrite !IH.
  - reflexivity.
Qed.

Lemma shr_shift_left m e n :
  (0 <= n)%Z ->
  shr (Build_shr_record (Zpos (shift_left m n)) false false) e n
  = (Build_shr_record (Zpos m) false false, (e + n)%Z).
Proof.
  destruct n as [|p|p]; simpl; intros H; try lia.
  - now rewrite Z.add_0_r.
  - f_equal. rewrite iter_pos_iter. clear H.
    induction p as [|p IH] using Pos.peano_ind.
    + reflexivity.
    + rewrite !Pos.iter_succ. rewrite <- Pos.iter_swap. exact IH.
Qed.

Lemma round_aux_exact m n e :
  (0 <= n)%Z -> Zpos (digits2_pos m) = 53%Z ->
  (-1074 <= e + n <= 971)%Z ->
  binary_round_aux prec emax false (Zpos (shift_left m n)) e loc_Exact
  = S754_finite false m (e + n).
Proof.
  intros Hn Hd He. unfold binary_round_aux, shr_fexp.
  cbn [Zdigits2 shr_record_of_loc].
  rewrite (digits_shift_left m n Hn), Hd.
  replace (fexp prec emax (53 + n + e) - e)%Z with n
    by (unfold fexp, emin, prec, emax; lia).
  rewrite (shr_shift_left m e n Hn).
  cbn [shr_m loc_of_shr_record round_nearest_even Zdigits2 shr_record_of_loc].
  rewrite Hd.
  replace (fexp prec emax (53 + (e + n)) - (e + n))%Z with 0%Z
    by (unfold fexp, emin, prec, emax; lia).
  cbn [shr shr_m].
  destruct (Z.leb_spec (e + n) (emax - prec)) as [_|H];
    [reflexivity|unfold emax, prec in H; lia].
Qed.

Lemma of_Z_exact a :
  (Zpos (digits2_pos a) <= 53)%Z ->
  of_Z (Zpos a)
  = S754_finite false (shift_left a (53 - Zpos (digits2_pos a)))
                      (Zpos (digits2_pos a) - 53).
Proof.
  intros Hd. unfold of_Z, binary_normalize, binary_round, shl_align.
  set (d := Zpos (digits2_pos a)) in *.
  replace (fexp prec emax (d + 0) - 0)%Z with (d - 53)%Z
    by (unfold fexp, emin, prec, emax; lia).
  replace (fexp prec emax (d + 0))%Z with (d - 53)%Z
    by (unfold fexp, emin, prec, emax; lia).
  destruct (d - 53)%Z as [|p|p] eqn:E; try lia.
  - replace (53 - d)%Z with 0%Z by lia. cbn [shift_left].
    exact (round_aux_exact a 0 0 ltac:(lia) ltac:(fold d; lia) ltac:(lia)).
  - replace (53 - d)%Z with (Zpos p) by lia. cbn [shift_left].
    pose proof (round_aux_exact (Pos.iter xO a p) 0 (Zneg p) ltac:(lia)) as R.
    rewrite iter_xO_digits in R. cbn [shift_left] in R.
    rewrite Z.add_0_r in R. apply R; [|lia].
    rewrite Pos2Z.inj_add. fold d. lia.
Qed.

Lemma digits_bounds p :
  (2 ^ (Zpos (digits2_pos p) - 1) <= Zpos p < 2 ^ Zpos (digits2_pos p))%Z.
Proof.
  assert (E : digits2_pos p = Pos.size p)
    by (induction p as [p IH|p IH|]; simpl; congruence).
  rewrite E. split.
  - pose proof (Pos.size_le p) as H.
    apply Pos2Z.pos_le_pos in H.
    rewrite Pos2Z.inj_pow, (Pos2Z.inj_xO p) in H.
    replace (Zpos (Pos.size p)) with (Z.succ (Zpos (Pos.size p) - 1)) in H
      by lia.
    rewrite Z.pow_succ_r in H by lia. lia.
  - pose proof (Pos.size_gt p) as H.
    apply Pos2Z.pos_lt_pos in H. now rewrite Pos2Z.inj_pow in H.
Qed.

Lemma digits_of_product a b :
  (Zpos (digits2_pos a) + Zpos (digits2_pos b) - 1
   <= Zpos (digits2_pos (a * b)))%Z /\
  (Zpos (digits2_pos a) <= Zpos (digits2_pos (a * b)))%Z /\
  (Zpos (digits2_pos b) <= Zpos (digits2_pos (a * b)))%Z.
Proof.
  pose proof (digits_bounds a) as [La Ua].
  pose proof (digits_bounds b) as [Lb Ub].
  pose proof (digits_bounds (a * b)) as [Lab Uab].
  rewrite Pos2Z.inj_mul in Lab, Uab.
  set (da := Zpos (digits2_pos a)) in *.
  set (db := Zpos (digits2_pos b)) in *.
  set (dab := Zpos (digits2_pos (a * b))) in *.
  assert (Hda : (1 <= da)%Z) by (unfold da; lia).
  assert (Hdb : (1 <= db)%Z) by (unfold db; lia).
  assert (P1 : (2 ^ (da + db - 2) < 2 ^ dab)%Z).
  { replace (da + db - 2)%Z with ((da - 1) + (db - 1))%Z by lia.
    rewrite Z.pow_add_r by lia.
    assert (0 < 2 ^ (da - 1))%Z by (apply Z.pow_pos_nonneg; lia).
    assert (0 < 2 ^ (db - 1))%Z by (apply Z.pow_pos_nonneg; lia).
    nia. }
  apply Z.pow_lt_mono_r_iff in P1; [|lia|unfold dab; lia].
  assert (P2 : (2 ^ (da - 1) < 2 ^ dab)%Z) by nia.
  apply Z.pow_lt_mono_r_iff in P2; [|lia|unfold dab; lia].
  assert (P3 : (2 ^ (db - 1) < 2 ^ dab)%Z) by nia.
  apply Z.pow_lt_mono_r_iff in P3; [|lia|unfold dab; lia].
  lia.
Qed.

Lemma digits_below_2p53 a :
  (Zpos a < 2 ^ 53)%Z -> (Zpos (digits2_pos a) <= 53)%Z.
Proof.
  intros Ha. pose proof (digits_bounds a) as [L _].
  assert (P : (2 ^ (Zpos (digits2_pos a) - 1) < 2 ^ 53)%Z) by lia.
  apply Z.pow_lt_mono_r_iff in P; lia.
Qed.

Lemma mul_of_Z_exact a b :
  (Zpos (a * b) < 2 ^ 53)%Z ->
  mul (of_Z (Zpos a)) (of_Z (Zpos b)) = of_Z (Zpos (a * b)).
Proof.
  intros Hab.
  pose proof (digits_below_2p53 _ Hab) as Hdab.
  destruct (digits_of_product a b) as [Hsum [Ha Hb]].
  rewrite !of_Z_exact by lia.
  set (da := Zpos (digits2_pos a)) in *.
  set (db := Zpos (digits2_pos b)) in *.
  set (dab := Zpos (digits2_pos (a * b))) in *.
  unfold mul, SFmul. cbn [xorb].
  rewrite shift_left_mul by lia.
  replace (53 - da + (53 - db))%Z
    with ((53 - dab) + (53 - da - db + dab))%Z by lia.
  rewrite <- shift_left_add by lia.
  rewrite round_aux_exact.
  - f_equal. lia.
  - lia.
  - rewrite digits_shift_left by lia. fold dab. lia.
  - lia.
Qed.

Lemma to_Z_of_Z a :
  (Zpos a < 2 ^ 53)%Z -> to_Z (of_Z (Zpos a)) = Some (Zpos a).
Proof.
  intros Ha. pose proof (digits_below_2p53 a Ha) as Hd.
  rewrite of_Z_exact by exact Hd. unfold to_Z.
  set (d := Zpos (digits2_pos a)) in *.
  rewrite shift_left_Z by lia.
  destruct (Z.leb_spec 0 (d - 53)) as [H|H].
  - replace (d - 53)%Z with 0%Z by lia. replace (53 - d)%Z with 0%Z by lia.
    simpl. f_equal. lia.
  - replace (- (d - 53))%Z with (53 - d)%Z by lia.
    rewrite Z.mod_mul by (apply Z.pow_nonzero; lia).
    rewrite Z.div_mul by (apply Z.pow_nonzero; lia).
    reflexivity.
Qed.

(** ** Countable foods (claim C7) *)

Lemma get_In {V : Type} k (v : V) (o : Obj.t V) :
  Obj.get k o = Some v -> In (k, v) o.
Proof.
  induction o as [|[a w] o IH]; simpl; [discriminate|].
  destruct (String.eqb_spec a k) as [->|_].
  - intros E. injection E as <-. now left.
  - intros E. right. now apply IH.
Qed.

Lemma option_Z_eqb_eq a b : option_Z_eqb a b = true -> a = b.
Proof.
  destruct a, b; simpl; try discriminate; auto.
  intros H. apply Z.eqb_eq in H. now subst.
Qed.

Lemma countable_weight key weight :
  In (key, weight) COUNTABLE_FOODS ->
  exists w, weight = of_Z (Zpos w) /\ (Zpos w <= 120)%Z.
Proof.
  unfold COUNTABLE_FOODS, int. cbn [In]. intros H.
  repeat (destruct H as [H|H];
          [injection H as _ <-; eexists; split; [reflexivity|lia]|]).
  contradiction.
Qed.

(** The product of a count below 2^32, the bound of an array length, and a
    unit weight is computed without rounding. *)
Lemma products_exact count key weight :
  (Z.of_nat count < 2 ^ 32)%Z ->
  Obj.get key COUNTABLE_FOODS = Some weight ->
  exists w, to_Z weight = Some w /\
            to_Z (mul (of_nat count) weight) = Some (Z.of_nat count * w)%Z.
Proof.
  intros Hc Hk. apply get_In in Hk.
  destruct (countable_weight key weight Hk) as [w [-> Hw]].
  exists (Zpos w).
  assert (Hw53 : (Zpos w < 2 ^ 53)%Z) by (change (2 ^ 53)%Z with 9007199254740992%Z; lia).
  split; [exact (to_Z_of_Z w Hw53)|].
  unfold of_nat. destruct (Z.of_nat count) as [|c|c] eqn:E; try lia.
  - rewrite (of_Z_exact w (digits_below_2p53 w Hw53)). reflexivity.
  - assert (Hcw : (Zpos (c * w) < 2 ^ 53)%Z).
    { rewrite Pos2Z.inj_mul.
      change (2 ^ 53)%Z with 9007199254740992%Z.
      change (2 ^ 32)%Z with 4294967296%Z in Hc. nia. }
    rewrite (mul_of_Z_exact c w Hcw). rewrite (to_Z_of_Z _ Hcw).
    now rewrite Pos2Z.inj_mul.
Qed.

(** Every countable food has a truthy weight and a nutrition profile. *)
Lemma countable_is_known key weight :
  Obj.get key COUNTABLE_FOODS = Some weight ->
  truthy weight = true /\
  exists nutrition, Obj.get key NUTRITION_DATA = Some nutrition.
Proof.
  intros Hk. apply get_In in Hk.
  assert (Hall : forallb (fun entry =>
            truthy (snd entry) &&
            match Obj.get (fst entry) NUTRITION_DATA with
            | Some _ => true
            | None => false
            end) COUNTABLE_FOODS = true) by (vm_compute; reflexivity).
  rewrite forallb_forall in Hall. specialize (Hall _ Hk).
  cbv beta iota delta [snd fst] in Hall.
  apply andb_true_iff in Hall. destruct Hall as [Ht Hn]. split; [exact Ht|].
  destruct (Obj.get key NUTRITION_DATA) as [n|];
    [exists n; reflexivity|discriminate Hn].
Qed.

Lemma calculateNutrition_found foodName count areaRatio nutrition :
  Obj.get (normalizedFoodName foodName) NUTRITION_DATA = Some nutrition ->
  calculateNutrition foodName count areaRatio
  = let '(portionGrams, portionSize) :=
      portion (normalizedFoodName foodName) count areaRatio in
    let multiplier := div portionGrams (int 100) in
    FoodItem.mk foodName portionSize portionGrams
      (Math_round (mul (Profile.calories_per_100g nutrition) multiplier))
      (round1 (Profile.protein_g nutrition) multiplier)
      (round1 (Profile.carbs_g nutrition) multiplier)
      (round1 (Profile.fat_g nutrition) multiplier)
      (dec 85 100).
Proof.
  intros H. unfold calculateNutrition. now rewrite (member_own _ _ _ H).
Qed.

(** The keys of [NUTRITION_DATA] are no names of members of
    [Object.prototype]. *)
Lemma nutrition_key_own key nutrition :
  Obj.get key NUTRITION_DATA = Some nutrition -> Obj.inherited key = false.
Proof.
  intros Hk. apply get_In in Hk.
  assert (Hall : forallb (fun entry => negb (Obj.inherited (fst entry)))
                         NUTRITION_DATA = true) by (vm_compute; reflexivity).
  rewrite forallb_forall in Hall. specialize (Hall _ Hk).
  cbv beta iota delta [fst] in Hall. now apply negb_true_iff in Hall.
Qed.

Lemma portion_countable key weight count areaRatio :
  Obj.get key COUNTABLE_FOODS = Some weight ->
  portion key count areaRatio
  = (mul (of_nat count) weight, (nat_to_string count ++ " pieces")%string).
Proof.
  intros Hk. destruct (countable_is_known key weight Hk) as [Ht _].
  unfold portion, truthy_at, number_at.
  now rewrite (member_own _ _ _ Hk), Ht.
Qed.

(** C7: for every food whose key is in [COUNTABLE_FOODS] and every count
    (one or more in particular), the estimate has
    [portion_grams = count * weight], the binary64 product, and
    [portion_size] the count followed by " pieces".  For every count below
    2^32, the bound of an array length, the product is the integer
    [count * weight] exactly.  Three pieces of 40 grams give 120 grams and
    "3 pieces". *)
Theorem countable_portion foodName weight count areaRatio :
  Obj.get (normalizedFoodName foodName) COUNTABLE_FOODS = Some weight ->
  (1 <= count)%nat ->
  let item := calculateNutrition foodName count areaRatio in
  FoodItem.portion_grams item = mul (of_nat count) weight /\
  FoodItem.portion_size item = (nat_to_string count ++ " pieces")%string /\
  ((Z.of_nat count < 2 ^ 32)%Z ->
   exists w, to_Z weight = Some w /\
             to_Z (FoodItem.portion_grams item) = Some (Z.of_nat count * w)%Z) /\
  (Obj.get "idli" COUNTABLE_FOODS = Some (int 40) /\
   FoodItem.portion_grams (calculateNutrition "idli" 3 areaRatio) = int 120 /\
   FoodItem.portion_size (calculateNutrition "idli" 3 areaRatio) = "3 pieces").
Proof.
  intros Hk _ item.
  destruct (countable_is_known _ _ Hk) as [_ [nutrition Hn]].
  assert (Hg : FoodItem.portion_grams item = mul (of_nat count) weight).
  { unfold item. rewrite (calculateNutrition_found _ _ _ _ Hn).
    now rewrite (portion_countable _ _ _ _ Hk). }
  split; [exact Hg|]. split.
  { unfold item. rewrite (calculateNutrition_found _ _ _ _ Hn).
    now rewrite (portion_countable _ _ _ _ Hk). }
  split.
  { intros Hc. rewrite Hg. exact (products_exact _ _ _ Hc Hk). }
  repeat split.
Qed.

Lemma countable_portion_witness :
  Obj.get (normalizedFoodName "Vada") COUNTABLE_FOODS = Some (int 70) /\
  (1 <= 2)%nat /\
  FoodItem.portion_grams (calculateNutrition "Vada" 2 (dec 3 10))
  = mul (of_nat 2) (int 70) /\
  FoodItem.portion_size (calculateNutrition "Vada" 2 (dec 3 10)) = "2 pieces".
Proof.
  split; [reflexivity|]. split; [lia|].
  destruct (countable_portion "Vada" (int 70) 2 (dec 3 10) eq_refl
              (le_S 1 1 (le_n 1))) as [Hg [Hs _]].
  split; [exact Hg|exact Hs].
Defined.

(** ** The nutrition estimator (claim C8) *)

(** [round_half_up] is [floor (x + 1/2)]: the integer [n] with
    [n - 1/2 <= x < n + 1/2], written for [x = v / 2^k]. *)
Lemma round_half_up_spec s m e :
  (e < 0)%Z ->
  let v := cond_Zopp s (Zpos m) in
  let n := round_half_up s m e in
  ((2 * n - 1) * 2 ^ (- e) <= 2 * v < (2 * n + 1) * 2 ^ (- e))%Z.
Proof.
  intros He v n. unfold n, round_half_up. fold v.
  destruct (Z.leb_spec 0 e) as [H|_]; [lia|].
  replace (1 - e)%Z with (Z.succ (- e)) by lia.
  rewrite Z.pow_succ_r by lia.
  set (p := (2 ^ (- e))%Z).
  assert (Hp : (0 < p)%Z) by (apply Z.pow_pos_nonneg; lia).
  pose proof (Z.div_mod (2 * v + p) (2 * p) ltac:(lia)) as Hdm.
  pose proof (Z.mod_pos_bound (2 * v + p) (2 * p) ltac:(lia)) as Hb.
  set (q := ((2 * v + p) / (2 * p))%Z) in *.
  nia.
Qed.

Lemma getPortionFromArea_cases areaRatio :
  In (getPortionFromArea areaRatio) ["Small"; "Medium"; "Large"; "Very Large"].
Proof.
  unfold getPortionFromArea.
  destruct (lt areaRatio (dec 10 100)); [simpl; tauto|].
  destruct (lt areaRatio (dec 25 100)); [simpl; tauto|].
  destruct (lt areaRatio (dec 50 100)); simpl; tauto.
Qed.

Lemma portion_reachable key count areaRatio :
  Obj.inherited key = false ->
  (count <= 200)%nat ->
  In (fst (portion key count areaRatio)) (reachable_grams key).
Proof.
  intros Hown Hc. unfold reachable_grams.
  destruct (Obj.get key COUNTABLE_FOODS) as [weight|] eqn:Hk.
  - rewrite (portion_countable _ _ _ _ Hk). cbv beta iota delta [fst].
    apply (in_map (fun count => mul (of_nat count) weight)).
    apply in_seq. lia.
  - rewrite portion_area_based
      by (unfold truthy_at; now rewrite (member_not_own _ _ Hk), Hown).
    cbv beta iota delta [fst].
    destruct (getPortionFromArea_cases areaRatio) as [<-|[<-|[<-|[<-|[]]]]];
      vm_compute; tauto.
Qed.

Lemma number_eqb_eq x y : number_eqb x y = true -> x = y.
Proof.
  destruct x as [a|a| |a m e], y as [b|b| |b m' e']; simpl;
    try discriminate; try reflexivity.
  - intros H. apply Bool.eqb_prop in H. now subst.
  - intros H. apply Bool.eqb_prop in H. now subst.
  - intros H. apply andb_true_iff in H. destruct H as [H He].
    apply andb_true_iff in H. destruct H as [Hs Hm].
    apply Bool.eqb_prop in Hs. apply Pos.eqb_eq in Hm. apply Z.eqb_eq in He.
    now subst.
Qed.

Lemma tenths_of_sound value a : tenths_of value = Some a -> value = dec a 10.
Proof.
  unfold tenths_of.
  destruct (to_Z (Math_round (mul value (int 10)))) as [a'|]; [|discriminate].
  destruct (number_eqb value (dec a' 10)) eqn:E; [|discriminate].
  intros H. injection H as <-. exact (number_eqb_eq _ _ E).
Qed.

Lemma rounded_integer_sound x n :
  rounded_integer x = Some n -> Math_round x = of_Z n.
Proof.
  unfold rounded_integer.
  destruct (to_Z (Math_round x)) as [n'|]; [|discriminate].
  destruct (number_eqb (Math_round x) (of_Z n')) eqn:E; [|discriminate].
  intros H. injection H as <-. exact (number_eqb_eq _ _ E).
Qed.

Lemma macro_check_sound a g value grams :
  tenths_of value = Some a -> to_Z grams = Some g ->
  macro_check a g value (div grams (int 100)) = true ->
  rounded_to_tenth value grams (round1 value (div grams (int 100))).
Proof.
  intros Ha Hg. unfold macro_check.
  destruct (rounded_integer (mul (mul value (div grams (int 100))) (int 10)))
    as [n|] eqn:En; [|discriminate].
  intros H. exists a, g, n.
  split; [exact (tenths_of_sound _ _ Ha)|]. split; [exact Hg|].
  split; [|now apply Z.leb_le].
  unfold round1. now rewrite (rounded_integer_sound _ _ En).
Qed.

(** Checked by computation for every entry of [NUTRITION_DATA] and every
    portion weight it can reach. *)
Lemma entries_check : forallb entry_check NUTRITION_DATA = true.
Proof. vm_cast_no_check (eq_refl true). Qed.

Lemma estimate_rounded key nutrition count areaRatio :
  Obj.get key NUTRITION_DATA = Some nutrition ->
  (count <= 200)%nat ->
  let grams := fst (portion key count areaRatio) in
  let multiplier := div grams (int 100) in
  rounded_half_up (Profile.calories_per_100g nutrition) grams
    (Math_round (mul (Profile.calories_per_100g nutrition) multiplier)) /\
  rounded_to_tenth (Profile.protein_g nutrition) grams
    (round1 (Profile.protein_g nutrition) multiplier) /\
  rounded_to_tenth (Profile.carbs_g nutrition) grams
    (round1 (Profile.carbs_g nutrition) multiplier) /\
  rounded_to_tenth (Profile.fat_g nutrition) grams
    (round1 (Profile.fat_g nutrition) multiplier).
Proof.
  intros Hn Hc grams multiplier.
  pose proof (nutrition_key_own _ _ Hn) as Hown. apply get_In in Hn.
  pose proof (proj1 (forallb_forall _ _) entries_check _ Hn) as Hentry.
  unfold entry_check in Hentry.
  change (fst (key, nutrition)) with key in Hentry.
  change (snd (key, nutrition)) with nutrition in Hentry.
  destruct (to_Z (Profile.calories_per_100g nutrition)) as [c|] eqn:Ec;
    [|discriminate Hentry].
  destruct (tenths_of (Profile.protein_g nutrition)) as [ap|] eqn:Ep;
    [|discriminate Hentry].
  destruct (tenths_of (Profile.carbs_g nutrition)) as [ac|] eqn:Ecarbs;
    [|discriminate Hentry].
  destruct (tenths_of (Profile.fat_g nutrition)) as [af|] eqn:Ef;
    [|discriminate Hentry].
  pose proof (proj1 (forallb_forall _ _) Hentry _
                (portion_reachable key count areaRatio Hown Hc)) as H.
  fold grams in H. unfold portion_check in H.
  destruct (to_Z grams) as [g|] eqn:Eg; [|discriminate H].
  fold multiplier in H.
  apply andb_true_iff in H. destruct H as [H Hf].
  apply andb_true_iff in H. destruct H as [H Hcarbs].
  apply andb_true_iff in H. destruct H as [Hcal Hp].
  split.
  { exists c, g. split; [exact Ec|]. split; [exact Eg|].
    exact (option_Z_eqb_eq _ _ Hcal). }
  split; [exact (macro_check_sound _ _ _ _ Ep Eg Hp)|].
  split; [exact (macro_check_sound _ _ _ _ Ecarbs Eg Hcarbs)|].
  exact (macro_check_sound _ _ _ _ Ef Eg Hf).
Qed.

(** C8: for every food found in [NUTRITION_DATA] the estimate has
    [multiplier = portion_grams / 100],
    [calories = Math.round(calories_per_100g * multiplier)] and each of
    protein, carbs and fat equal to
    [Math.round(value * multiplier * 10) / 10].  [Math.round] rounds halves
    up ([round_half_up_spec]); up to 200 pieces the calories are exactly
    [floor (c * g / 100 + 1/2)] for the integers [c] of the table and [g]
    of the portion, and protein, carbs and fat are the exact products
    rounded to a nearest tenth.  Dal at area ratio 0.3 gives 150 grams, 174
    calories, 13.5, 30.0 and 1.5. *)
Theorem matched_food_nutrition foodName count areaRatio nutrition :
  Obj.get (normalizedFoodName foodName) NUTRITION_DATA = Some nutrition ->
  let item := calculateNutrition foodName count areaRatio in
  let multiplier := div (FoodItem.portion_grams item) (int 100) in
  FoodItem.calories item
  = Math_round (mul (Profile.calories_per_100g nutrition) multiplier) /\
  FoodItem.protein item
  = div (Math_round (mul (mul (Profile.protein_g nutrition) multiplier) (int 10)))
        (int 10) /\
  FoodItem.carbs item
  = div (Math_round (mul (mul (Profile.carbs_g nutrition) multiplier) (int 10)))
        (int 10) /\
  FoodItem.fat item
  = div (Math_round (mul (mul (Profile.fat_g nutrition) multiplier) (int 10)))
        (int 10) /\
  ((count <= 200)%nat ->
   rounded_half_up (Profile.calories_per_100g nutrition)
                   (FoodItem.portion_grams item) (FoodItem.calories item) /\
   rounded_to_tenth (Profile.protein_g nutrition)
                    (FoodItem.portion_grams item) (FoodItem.protein item) /\
   rounded_to_tenth (Profile.carbs_g nutrition)
                    (FoodItem.portion_grams item) (FoodItem.carbs item) /\
   rounded_to_tenth (Profile.fat_g nutrition)
                    (FoodItem.portion_grams item) (FoodItem.fat item)) /\
  Math_round (dec 25 10) = int 3 /\
  Obj.get "dal" NUTRITION_DATA
  = Some (Profile.mk (int 116) (int 20) (int 9) (int 1) (int 30) "Low") /\
  calculateNutrition "dal" 1 (dec 3 10)
  = FoodItem.mk "dal" "Large portion" (int 150) (int 174) (dec 135 10)
                (int 30) (dec 15 10) (dec 85 100).
Proof.
  intros Hn item multiplier.
  assert (Hitem : item
    = FoodItem.mk foodName
        (snd (portion (normalizedFoodName foodName) count areaRatio))
        (fst (portion (normalizedFoodName foodName) count areaRatio))
        (Math_round (mul (Profile.calories_per_100g nutrition)
           (div (fst (portion (normalizedFoodName foodName) count areaRatio))
                (int 100))))
        (round1 (Profile.protein_g nutrition)
           (div (fst (portion (normalizedFoodName foodName) count areaRatio))
                (int 100)))
        (round1 (Profile.carbs_g nutrition)
           (div (fst (portion (normalizedFoodName foodName) count areaRatio))
                (int 100)))
        (round1 (Profile.fat_g nutrition)
           (div (fst (portion (normalizedFoodName foodName) count areaRatio))
                (int 100)))
        (dec 85 100)).
  { unfold item. rewrite (calculateNutrition_found _ _ _ _ Hn).
    now destruct (portion (normalizedFoodName foodName) count areaRatio). }
  unfold multiplier. rewrite Hitem.
  cbv beta iota delta [FoodItem.calories FoodItem.protein FoodItem.carbs
                       FoodItem.fat FoodItem.portion_grams].
  split; [reflexivity|]. split; [reflexivity|]. split; [reflexivity|].
  split; [reflexivity|]. split.
  { intros Hc. exact (estimate_rounded _ _ _ areaRatio Hn Hc). }
  split; [vm_compute; reflexivity|].
  split; [reflexivity|].
  vm_compute. reflexivity.
Qed.

Lemma matched_food_nutrition_witness :
  Obj.get (normalizedFoodName "Cooked Rice") NUTRITION_DATA
  = Some (Profile.mk (int 130) (int 28) (tenths 27) (tenths 3) (int 72) "High") /\
  FoodItem.calories (calculateNutrition "Cooked Rice" 1 (dec 6 10))
  = Math_round (mul (int 130)
      (div (FoodItem.portion_grams (calculateNutrition "Cooked Rice" 1 (dec 6 10)))
           (int 100))).
Proof.
  split; [reflexivity|].
  exact (proj1 (matched_food_nutrition "Cooked Rice" 1 (dec 6 10)
                  (Profile.mk (int 130) (int 28) (tenths 27) (tenths 3)
                              (int 72) "High") eq_refl)).
Defined.

(** ** The detector adapter (claim C4) *)

Lemma runCNNDetection_returns fetch image :
  exists ds, runCNNDetection fetch image = inr ds.
Proof.
  unfold runCNNDetection, callDetectionApi. simpl.
  destruct (fetch image) as [e|response]; [eexists; reflexivity|].
  destruct (Reply.ok response); simpl; [|eexists; reflexivity].
  destruct (Reply.json response) as [e|[|[] [ds|]]]; eexists; reflexivity.
Qed.

(** When the service did not fail, the adapter hands on the list it
    received, whatever its length. *)
Lemma runCNNDetection_healthy fetch image :
  Spec.serviceFailed (fetch image) = false ->
  exists response ds,
    fetch image = inr response /\
    Reply.json response = inr (Result true (Some ds)) /\
    runCNNDetection fetch image = inr ds.
Proof.
  unfold Spec.serviceFailed, runCNNDetection, callDetectionApi. simpl.
  destruct (fetch image) as [e|response]; [discriminate|].
  destruct (Reply.ok response); simpl; [|discriminate].
  destruct (Reply.json response) as [e|[|[] [ds|]]] eqn:Ej; simpl;
    try discriminate.
  intros _. exists response, ds.
  split; [reflexivity|]. split; [exact Ej|reflexivity].
Qed.

(** C4: the adapter never raises, for every image and whatever the service
    does; on any failure of the service (network error, non-success
    status, a body that is not JSON, [success] falsy, [detections]
    missing) it returns the fixed list of three detections, which is not
    empty. *)
Theorem runCNNDetection_fallback fetch image :
  (exists ds, runCNNDetection fetch image = inr ds) /\
  (Spec.serviceFailed (fetch image) = true ->
   runCNNDetection fetch image
   = inr [ Detection.mk "Idli" (dec 92 100) (dec 15 100);
           Detection.mk "Sambar" (dec 87 100) (dec 35 100);
           Detection.mk "Chapathi" (dec 78 100) (dec 20 100) ] /\
   forall ds, runCNNDetection fetch image = inr ds -> ds <> []).
Proof.
  split; [apply runCNNDetection_returns|].
  intros Hfail.
  assert (H : runCNNDetection fetch image = inr mockCNNDetection).
  { revert Hfail.
    unfold Spec.serviceFailed, runCNNDetection, callDetectionApi. simpl.
    destruct (fetch image) as [e|response]; [reflexivity|].
    destruct (Reply.ok response); simpl; [|reflexivity].
    destruct (Reply.json response) as [e|[|[] [ds|]]]; simpl;
      try reflexivity; discriminate. }
  split; [exact H|].
  intros ds Hds. rewrite H in Hds. injection Hds as <-. discriminate.
Qed.

Lemma runCNNDetection_fallback_witness :
  let fetch : Fetch :=
    fun _ => ret (Reply.mk false 503 (raise (Error "Unexpected token"))) in
  Spec.serviceFailed (fetch (Text "image")) = true /\
  runCNNDetection fetch (Text "image")
  = inr [ Detection.mk "Idli" (dec 92 100) (dec 15 100);
          Detection.mk "Sambar" (dec 87 100) (dec 35 100);
          Detection.mk "Chapathi" (dec 78 100) (dec 20 100) ].
Proof.
  intros fetch. split; [reflexivity|].
  exact (proj1 (proj2 (runCNNDetection_fallback fetch (Text "image")) eq_refl)).
Defined.

(** ** The pipeline in closed form *)

Lemma forEach_addFood entries acc :
  forEach (addFood (fun foodKey count maxAreaRatio =>
                      ret (calculateNutrition foodKey count maxAreaRatio)))
          entries acc
  = inr (acc ++ map (fun entry => foodOfGroup (summarize entry)) entries).
Proof.
  revert acc. induction entries as [|entry entries IH]; intros acc; simpl.
  - now rewrite app_nil_r.
  - rewrite IH. now rewrite <- app_assoc.
Qed.

(** The reply to a request with an image, from the detections. *)
Lemma recognize_detections fetch now image ds :
  ToBoolean image = true ->
  runCNNDetection fetch image = inr ds ->
  recognize fetch now image
  = inr (if collides ds
         then Response.mk 500
                (Some (Payload.mk (Some false) None
                         (Some "groupedDetections[foodKey].push is not a function")))
         else Response.mk 200
                (Some (Payload.mk (Some true)
                         (Some (withIds now 0 (map foodOfGroup (groupsOf ds))))
                         None))).
Proof.
  intros Himg Hds.
  unfold recognize, handler, handleWith, tryRecognize, recognizeFoods. simpl.
  rewrite Himg, Hds. simpl. rewrite groupDetections_grouping.
  destruct (collides ds); simpl; [reflexivity|].
  rewrite forEach_addFood. simpl.
  rewrite <- (map_map summarize foodOfGroup), summarize_grouping.
  reflexivity.
Qed.

Lemma recognize_foods fetch now image ds :
  ToBoolean image = true ->
  runCNNDetection fetch image = inr ds ->
  collides ds = false ->
  recognize fetch now image
  = inr (Response.mk 200
           (Some (Payload.mk (Some true)
                    (Some (withIds now 0 (map foodOfGroup (groupsOf ds))))
                    None))).
Proof.
  intros Himg Hds Hc. rewrite (recognize_detections _ _ _ _ Himg Hds).
  now rewrite Hc.
Qed.

Lemma recognize_collides fetch now image ds :
  ToBoolean image = true ->
  runCNNDetection fetch image = inr ds ->
  collides ds = true ->
  recognize fetch now image
  = inr (Response.mk 500
           (Some (Payload.mk (Some false) None
                    (Some "groupedDetections[foodKey].push is not a function")))).
Proof.
  intros Himg Hds Hc. rewrite (recognize_detections _ _ _ _ Himg Hds).
  now rewrite Hc.
Qed.

(** ** The handler (claim C5) *)

(** C5: whatever the detector and the estimator do, and for every request,
    the handler returns a response and does not throw.  For a request that
    carries an image, the response is [success: true] with the foods when
    detection, grouping and estimation return, and status 500 with
    [success: false] and the message of the exception when one of them
    throws; any exception in the [try] block is answered that way.  With
    the adapter and the estimator of this file the only exception left is
    the [TypeError] of the grouping loop for a label that is, in lower
    case, the name of a member of [Object.prototype]. *)
Theorem handler_never_throws detect estimate now :
  (forall req, exists resp, handleWith detect estimate now req = inr resp) /\
  (forall req e,
     Request.method req <> "OPTIONS" ->
     tryRecognize detect estimate now req = inl e ->
     handleWith detect estimate now req
     = inr (Response.mk 500
              (Some (Payload.mk (Some false) None (Some (errorMessage e)))))) /\
  (forall image,
     ToBoolean image = true ->
     let req := Request.mk "POST" (ret (ObjectBody image)) in
     (forall foods,
        recognizeFoods detect estimate image = inr foods ->
        handleWith detect estimate now req
        = inr (Response.mk 200
                 (Some (Payload.mk (Some true) (Some (withIds now 0 foods))
                                   None)))) /\
     (forall e,
        recognizeFoods detect estimate image = inl e ->
        handleWith detect estimate now req
        = inr (Response.mk 500
                 (Some (Payload.mk (Some false) None
                                   (Some (errorMessage e))))))) /\
  (forall fetch image,
     ToBoolean image = true ->
     exists ds,
       runCNNDetection fetch image = inr ds /\
       (collides ds = false ->
        recognize fetch now image
        = inr (Response.mk 200
                 (Some (Payload.mk (Some true)
                          (Some (withIds now 0
                                   (map foodOfGroup (groupsOf ds))))
                          None)))) /\
       (collides ds = true ->
        recognize fetch now image
        = inr (Response.mk 500
                 (Some (Payload.mk (Some false) None
                          (Some "groupedDetections[foodKey].push is not a function")))))).
Proof.
  split; [|split; [|split]].
  - intros req. unfold handleWith.
    destruct (Request.method req =? "OPTIONS"); [eexists; reflexivity|].
    simpl. destruct (tryRecognize detect estimate now req); eexists; reflexivity.
  - intros req e Hm He. unfold handleWith.
    rewrite (proj2 (String.eqb_neq _ _) Hm). simpl. now rewrite He.
  - intros image Himg req. split.
    + intros foods Hf. unfold handleWith, tryRecognize. simpl.
      now rewrite Himg, Hf.
    + intros e He. unfold handleWith, tryRecognize. simpl.
      now rewrite Himg, He.
  - intros fetch image Himg.
    destruct (runCNNDetection_returns fetch image) as [ds Hds].
    exists ds. split; [exact Hds|]. split; intros Hc.
    + exact (recognize_foods fetch now image ds Himg Hds Hc).
    + exact (recognize_collides fetch now image ds Himg Hds Hc).
Qed.

Lemma handler_never_throws_witness :
  let detect : JsValue -> Js (list Detection.t) :=
    fun _ => raise (Error "detector crashed") in
  let estimate : string -> nat -> number -> Js FoodItem.t :=
    fun foodKey count maxAreaRatio =>
      ret (calculateNutrition foodKey count maxAreaRatio) in
  let now : nat -> N := fun _ => 0%N in
  let fetch : Fetch :=
    fun _ => ret (Reply.mk true 200
                    (ret (Result true
                            (Some [Detection.mk "Constructor" (dec 9 10)
                                                (dec 3 10)])))) in
  ToBoolean (Text "image") = true /\
  recognizeFoods detect estimate (Text "image")
  = inl (Error "detector crashed") /\
  handleWith detect estimate now
             (Request.mk "POST" (ret (ObjectBody (Text "image"))))
  = inr (Response.mk 500
           (Some (Payload.mk (Some false) None (Some "detector crashed")))) /\
  collides [Detection.mk "Constructor" (dec 9 10) (dec 3 10)] = true /\
  recognize fetch now (Text "image")
  = inr (Response.mk 500
           (Some (Payload.mk (Some false) None
                    (Some "groupedDetections[foodKey].push is not a function")))).
Proof.
  intros detect estimate now fetch.
  split; [reflexivity|]. split; [reflexivity|].
  split.
  - exact (proj2 (proj1 (proj2 (proj2 (handler_never_throws detect estimate
                                         now)))
                    (Text "image") eq_refl)
                 (Error "detector crashed") eq_refl).
  - split; [reflexivity|].
    destruct (proj2 (proj2 (proj2 (handler_never_throws detect estimate now)))
                fetch (Text "image") eq_refl) as (ds & Hds & _ & Hthrow).
    assert (E : inr ds = runCNNDetection fetch (Text "image"))
      by now symmetry.
    vm_compute in E. injection E as ->. exact (Hthrow eq_refl).
Defined.

(** ** Foods of a reply *)

Lemma recognize_no_image fetch now image :
  ToBoolean image = false ->
  recognize fetch now image
  = inr (Response.mk 400
           (Some (Payload.mk None None (Some "No image provided")))).
Proof.
  intros Himg. unfold recognize, handler, handleWith, tryRecognize. simpl.
  now rewrite Himg.
Qed.

Lemma withIds_food now foods :
  forall index r, In r (withIds now index foods) -> In (Recognized.food r) foods.
Proof.
  induction foods as [|food foods IH]; intros index r; simpl; [tauto|].
  intros [<-|H]; [now left|right; exact (IH _ _ H)].
Qed.

(** A reply that carries foods was computed from the detections, none of
    which collides with a member of [Object.prototype]. *)
Lemma reply_foods fetch now image status success foods error :
  recognize fetch now image
  = inr (Response.mk status (Some (Payload.mk success (Some foods) error))) ->
  exists ds,
    runCNNDetection fetch image = inr ds /\
    collides ds = false /\
    foods = withIds now 0 (map foodOfGroup (groupsOf ds)).
Proof.
  intros Hr. destruct (runCNNDetection_returns fetch image) as [ds Hds].
  exists ds. split; [exact Hds|].
  destruct (ToBoolean image) eqn:Himg.
  - rewrite (recognize_detections fetch now image ds Himg Hds) in Hr.
    destruct (collides ds); [discriminate Hr|].
    split; [reflexivity|]. now injection Hr as _ _ <- _.
  - rewrite (recognize_no_image fetch now image Himg) in Hr. discriminate.
Qed.

Lemma calculateNutrition_name foodName count areaRatio :
  FoodItem.name (calculateNutrition foodName count areaRatio) = foodName.
Proof.
  unfold calculateNutrition.
  destruct (Obj.member (normalizedFoodName foodName) NUTRITION_DATA);
    try reflexivity;
    now destruct (portion (normalizedFoodName foodName) count areaRatio).
Qed.

Lemma calculateNutrition_confidence foodName count areaRatio :
  Obj.get (normalizedFoodName foodName) NUTRITION_DATA <> None ->
  FoodItem.confidence (calculateNutrition foodName count areaRatio)
  = dec 85 100.
Proof.
  intros Hknown. unfold calculateNutrition.
  destruct (Obj.get (normalizedFoodName foodName) NUTRITION_DATA)
    as [nutrition|] eqn:Hn; [| congruence].
  rewrite (member_own _ _ _ Hn).
  now destruct (portion (normalizedFoodName foodName) count areaRatio).
Qed.

Lemma foodOfGroup_name g : FoodItem.name (foodOfGroup g) = Group.foodKey g.
Proof. unfold foodOfGroup. simpl. apply calculateNutrition_name. Qed.

(** Every food of a reply is the item of the group of the detections that
    bears its name. *)
Lemma food_has_group fetch now image status success foods error r :
  recognize fetch now image
  = inr (Response.mk status (Some (Payload.mk success (Some foods) error))) ->
  In r foods ->
  exists ds gs g,
    runCNNDetection fetch image = inr ds /\
    normalize ds = inr gs /\ In g gs /\
    FoodItem.name (Recognized.food r) = Group.foodKey g /\
    Recognized.food r = foodOfGroup g.
Proof.
  intros Hr Hin.
  destruct (reply_foods _ _ _ _ _ _ _ Hr) as (ds & Hds & Hsafe & ->).
  apply withIds_food in Hin. apply in_map_iff in Hin.
  destruct Hin as [g [Hg Hin]].
  exists ds, (groupsOf ds), g.
  split; [exact Hds|].
  split; [now rewrite normalize_groups, Hsafe|].
  split; [exact Hin|].
  split; [rewrite <- Hg; apply foodOfGroup_name | now symmetry].
Qed.

(** ** Confidence of the returned items (claims C1 and C10) *)

(** C1: every food of a reply whose normalized name is a key of
    [NUTRITION_DATA] is the estimate of the group of the detections that
    bears its name, with its [confidence] replaced by the group's average:
    the sum of the confidences of the detections merged into the group,
    added from left to right starting from 0, divided by their number.
    The 0.85 the estimator writes is not what the reply carries. *)
Theorem matched_confidence_is_average
    fetch now image status success foods error r :
  recognize fetch now image
  = inr (Response.mk status (Some (Payload.mk success (Some foods) error))) ->
  In r foods ->
  Obj.get (normalizedFoodName (FoodItem.name (Recognized.food r)))
          NUTRITION_DATA <> None ->
  exists ds gs g,
    runCNNDetection fetch image = inr ds /\
    normalize ds = inr gs /\ In g gs /\
    FoodItem.name (Recognized.food r) = Group.foodKey g /\
    FoodItem.confidence
      (calculateNutrition (Group.foodKey g) (Group.count g)
                          (Group.maxAreaRatio g)) = dec 85 100 /\
    Recognized.food r
    = FoodItem.set_confidence
        (calculateNutrition (Group.foodKey g) (Group.count g)
                            (Group.maxAreaRatio g))
        (Group.avgConfidence g) /\
    FoodItem.confidence (Recognized.food r) = Group.avgConfidence g /\
    let members :=
      Spec.members Str.toLowerCase (FoodItem.name (Recognized.food r)) ds in
    members <> [] /\
    FoodItem.confidence (Recognized.food r)
    = div (fold_left add (map Detection.confidence members) (of_Z 0))
          (of_nat (List.length members)).
Proof.
  intros Hr Hin Hknown.
  destruct (food_has_group _ _ _ _ _ _ _ _ Hr Hin)
    as [ds [gs [g [Hds [Hgs [Hg [Hname Hfood]]]]]]].
  exists ds, gs, g.
  rewrite Hname in Hknown.
  destruct (group_fields ds gs g Hgs Hg) as (Hne & Havg & _ & _).
  split; [exact Hds|]. split; [exact Hgs|]. split; [exact Hg|].
  split; [exact Hname|].
  split; [now apply calculateNutrition_confidence|].
  split; [exact Hfood|]. split; [now rewrite Hfood|].
  rewrite Hname. split; [exact Hne|]. rewrite Hfood. exact Havg.
Qed.

Lemma matched_confidence_is_average_witness :
  let fetch : Fetch :=
    fun _ => ret (Reply.mk true 200
                    (ret (Result true
                            (Some [ Detection.mk "Idli" (dec 92 100) (dec 15 100);
                                    Detection.mk "Idli" (dec 88 100) (dec 20 100);
                                    Detection.mk "Sambar" (dec 87 100)
                                                 (dec 35 100) ])))) in
  let now : nat -> N := fun _ => 0%N in
  let idli :=
    FoodItem.mk "idli" "2 pieces" (int 80) (int 46) (dec 16 10) (dec 96 10)
                (dec 3 10) (dec 90 100) in
  let sambar :=
    FoodItem.mk "sambar" "Large portion" (int 150) (int 135) (int 6) (int 18)
                (dec 45 10) (dec 87 100) in
  let foods := [Recognized.mk "food_0_0" idli; Recognized.mk "food_0_1" sambar] in
  recognize fetch now (Text "image")
  = inr (Response.mk 200 (Some (Payload.mk (Some true) (Some foods) None))) /\
  In (Recognized.mk "food_0_0" idli) foods /\
  Obj.get (normalizedFoodName "idli") NUTRITION_DATA <> None /\
  FoodItem.confidence idli
  = div (fold_left add [dec 92 100; dec 88 100] (of_Z 0)) (of_nat 2) /\
  FoodItem.confidence idli = dec 90 100.
Proof.
  intros fetch now idli sambar foods.
  assert (Hr : recognize fetch now (Text "image")
               = inr (Response.mk 200
                        (Some (Payload.mk (Some true) (Some foods) None))))
    by (vm_compute; reflexivity).
  assert (Hin : In (Recognized.mk "food_0_0" idli) foods) by now left.
  assert (Hk : Obj.get (normalizedFoodName "idli") NUTRITION_DATA <> None)
    by (vm_compute; discriminate).
  split; [exact Hr|]. split; [exact Hin|]. split; [exact Hk|].
  split; [| reflexivity].
  destruct (matched_confidence_is_average fetch now (Text "image") 200
              (Some true) foods None (Recognized.mk "food_0_0" idli)
              Hr Hin Hk)
    as (ds & gs & g & Hds & _ & _ & _ & _ & _ & _ & _ & Hmean).
  assert (E : inr ds = runCNNDetection fetch (Text "image")) by now symmetry.
  vm_compute in E. injection E as ->. exact Hmean.
Defined.

(** C10: every food of a reply, the default item of an unknown food
    included, carries the average confidence of the group that bears its
    name, the left-to-right sum of the confidences of the detections merged
    into the group divided by their number: the handler overwrites
    [confidence] for every group.  For an unknown food the other fields are
    those of the default item and the 0.5 of the default is replaced. *)
Theorem every_confidence_is_average
    fetch now image status success foods error r :
  recognize fetch now image
  = inr (Response.mk status (Some (Payload.mk success (Some foods) error))) ->
  In r foods ->
  exists ds gs g,
    runCNNDetection fetch image = inr ds /\
    normalize ds = inr gs /\ In g gs /\
    FoodItem.name (Recognized.food r) = Group.foodKey g /\
    Recognized.food r
    = FoodItem.set_confidence
        (calculateNutrition (Group.foodKey g) (Group.count g)
                            (Group.maxAreaRatio g))
        (Group.avgConfidence g) /\
    FoodItem.confidence (Recognized.food r) = Group.avgConfidence g /\
    (let members :=
       Spec.members Str.toLowerCase (FoodItem.name (Recognized.food r)) ds in
     members <> [] /\
     FoodItem.confidence (Recognized.food r)
     = div (fold_left add (map Detection.confidence members) (of_Z 0))
           (of_nat (List.length members))) /\
    (Obj.member (normalizedFoodName (Group.foodKey g)) NUTRITION_DATA
     = Obj.Missing ->
     FoodItem.confidence
       (calculateNutrition (Group.foodKey g) (Group.count g)
                           (Group.maxAreaRatio g)) = dec 5 10 /\
     Recognized.food r
     = FoodItem.mk (Group.foodKey g) "1 portion" (int 100) (int 200) (int 10)
                   (int 30) (int 5) (Group.avgConfidence g)).
Proof.
  intros Hr Hin.
  destruct (food_has_group _ _ _ _ _ _ _ _ Hr Hin)
    as [ds [gs [g [Hds [Hgs [Hg [Hname Hfood]]]]]]].
  exists ds, gs, g.
  destruct (group_fields ds gs g Hgs Hg) as (Hne & Havg & _ & _).
  split; [exact Hds|]. split; [exact Hgs|]. split; [exact Hg|].
  split; [exact Hname|]. split; [exact Hfood|].
  split; [now rewrite Hfood|].
  split.
  - rewrite Hname. split; [exact Hne|]. rewrite Hfood. exact Havg.
  - intros Hunknown. rewrite Hfood. unfold foodOfGroup, calculateNutrition.
    rewrite Hunknown. split; reflexivity.
Qed.

Lemma every_confidence_is_average_witness :
  let fetch : Fetch :=
    fun _ => ret (Reply.mk true 200
                    (ret (Result true
                            (Some [ Detection.mk "Pho" (dec 9 10) (dec 3 10);
                                    Detection.mk "Idli" (dec 92 100) (dec 15 100);
                                    Detection.mk "pho" (dec 7 10) (dec 1 10) ])))) in
  let now : nat -> N := fun _ => 0%N in
  let pho :=
    FoodItem.mk "pho" "1 portion" (int 100) (int 200) (int 10) (int 30)
                (int 5) (dec 8 10) in
  let idli :=
    FoodItem.mk "idli" "1 pieces" (int 40) (int 23) (dec 8 10) (dec 48 10)
                (dec 2 10) (dec 92 100) in
  let foods := [Recognized.mk "food_0_0" pho; Recognized.mk "food_0_1" idli] in
  recognize fetch now (Text "image")
  = inr (Response.mk 200 (Some (Payload.mk (Some true) (Some foods) None))) /\
  In (Recognized.mk "food_0_0" pho) foods /\
  FoodItem.confidence pho
  = div (fold_left add [dec 9 10; dec 7 10] (of_Z 0)) (of_nat 2) /\
  FoodItem.confidence pho = dec 8 10 /\
  Obj.member (normalizedFoodName "pho") NUTRITION_DATA = Obj.Missing.
Proof.
  intros fetch now pho idli foods.
  assert (Hr : recognize fetch now (Text "image")
               = inr (Response.mk 200
                        (Some (Payload.mk (Some true) (Some foods) None))))
    by (vm_compute; reflexivity).
  assert (Hin : In (Recognized.mk "food_0_0" pho) foods) by now left.
  split; [exact Hr|]. split; [exact Hin|].
  split; [| split; reflexivity].
  destruct (every_confidence_is_average fetch now (Text "image") 200
              (Some true) foods None (Recognized.mk "food_0_0" pho) Hr Hin)
    as (ds & gs & g & Hds & _ & _ & _ & _ & _ & (_ & Hmean) & _).
  assert (E : inr ds = runCNNDetection fetch (Text "image")) by now symmetry.
  vm_compute in E. injection E as ->. exact Hmean.
Defined.

(** ** Unknown foods (claim C3) *)









(** ** Identifiers of the reply *)

(** A string with no underscore in it. *)
Lemma digits_no_underscore d p q :
  NilEmpty.string_of_uint d <> (p ++ String "_" q)%string.
Proof.
  revert p; induction d; intros p H; destruct p as [|c p];
    simpl in H; try discriminate H;
    injection H as _ H; exact (IHd _ H).
Qed.

Lemma decimal_no_underscore d p q :
  NilZero.string_of_uint d <> (p ++ String "_" q)%string.
Proof.
  destruct d; try apply digits_no_underscore.
  destruct p as [|c [|c' p]]; discriminate.
Qed.

Lemma last_segment_inj a b x y :
  (forall p q, x <> (p ++ String "_" q)%string) ->
  (forall p q, y <> (p ++ String "_" q)%string) ->
  (a ++ String "_" x)%string = (b ++ String "_" y)%string -> x = y.
Proof.
  intros Hx Hy; revert b; induction a as [|c a IH]; intros [|c' b] H;
    simpl in H.
  - now injection H.
  - injection H as _ H. now apply Hx in H.
  - injection H as _ H. symmetry in H. now apply Hy in H.
  - injection H as _ H. eauto.
Qed.

Lemma nat_to_string_inj i j : nat_to_string i = nat_to_string j -> i = j.
Proof.
  unfold nat_to_string; intros H.
  assert (Hn : forall n, Nat.to_uint n <> Decimal.Nil).
  { intros n E. pose proof (Unsigned.of_to n) as Hof. rewrite E in Hof.
    simpl in Hof. subst n. discriminate E. }
  apply (f_equal NilZero.uint_of_string) in H.
  rewrite !NilZero.usu in H by apply Hn.
  injection H as H. now apply Unsigned.to_uint_inj.
Qed.

Lemma id_index_inj t t' i j :
  ("food_" ++ N_to_string t ++ "_" ++ nat_to_string i)%string
  = ("food_" ++ N_to_string t' ++ "_" ++ nat_to_string j)%string ->
  i = j.
Proof.
  intros H. apply nat_to_string_inj.
  change ("_" ++ nat_to_string i)%string with (String "_" (nat_to_string i)) in H.
  change ("_" ++ nat_to_string j)%string with (String "_" (nat_to_string j)) in H.
  cbn [append] in H. injection H as H.
  eapply last_segment_inj; [| | exact H];
    intros p q; apply decimal_no_underscore.
Qed.

Lemma withIds_index now foods :
  forall index r, In r (withIds now index foods) ->
    exists i, (index <= i)%nat /\
      Recognized.id r
      = ("food_" ++ N_to_string (now i) ++ "_" ++ nat_to_string i)%string.
Proof.
  induction foods as [|food rest IH]; intros index r; simpl.
  - intros [].
  - intros [<- | H].
    + exists index; split; [lia | reflexivity].
    + destruct (IH _ _ H) as (i & Hi & E). exists i; split; [lia | exact E].
Qed.

(** X1. The identifiers handed out in one reply are pairwise distinct,
    whatever the clock reads: the position of the food is part of its
    identifier. *)
Theorem reply_ids_distinct now index foods :
  NoDup (map Recognized.id (withIds now index foods)).
Proof.
  revert index; induction foods as [|food rest IH]; intros index; simpl.
  - constructor.
  - constructor; [| apply IH].
    intros H. apply in_map_iff in H. destruct H as (r & E & Hr).
    apply withIds_index in Hr. destruct Hr as (i & Hi & E').
    rewrite E' in E. apply id_index_inj in E. lia.
Qed.

(** ** The order of numbers *)

Ltac split_compare_all :=
  repeat match goal with
  | H : context [Z.compare ?a ?b] |- _ =>
      destruct (Z.compare_spec a b); simpl in *; subst
  | H : context [Pos.compare_cont Eq ?a ?b] |- _ =>
      change (Pos.compare_cont Eq a b) with (Pos.compare a b) in *;
      destruct (Pos.compare_spec a b); simpl in *; subst
  | |- context [Z.compare ?a ?b] =>
      destruct (Z.compare_spec a b); simpl in *; subst
  | |- context [Pos.compare_cont Eq ?a ?b] =>
      change (Pos.compare_cont Eq a b) with (Pos.compare a b) in *;
      destruct (Pos.compare_spec a b); simpl in *; subst
  end.

Ltac order_cases :=
  unfold max_step, lt, le, SFltb, SFleb, SFcompare in *; simpl in *;
  try discriminate; try reflexivity;
  split_compare_all; try discriminate; try reflexivity; try lia.

Lemma lt_irrefl x : lt x x = false.
Proof. destruct x as [[]|[]| |[] m e]; order_cases. Qed.

(** [a <= b] and [b < c] give [a < c]. *)
Lemma le_lt_trans a b c : le a b = true -> lt b c = true -> lt a c = true.
Proof.
  destruct a as [[]|[]| |[] ma ea], b as [[]|[]| |[] mb eb],
           c as [[]|[]| |[] mc ec]; intros H1 H2; order_cases.
Qed.

(** Not [b < a] and not [c < b] give not [c < a], when [b] is a number. *)
Lemma not_lt_trans a b c :
  is_nan b = false -> lt b a = false -> lt c b = false -> lt c a = false.
Proof.
  destruct a as [[]|[]| |[] ma ea], b as [[]|[]| |[] mb eb],
           c as [[]|[]| |[] mc ec]; intros Hn H1 H2; order_cases.
Qed.

Lemma max_step_not_below_left h x : lt (max_step h x) h = false.
Proof.
  destruct h as [[]|[]| |[] mh eh], x as [[]|[]| |[] mx ex]; order_cases.
Qed.

Lemma max_step_not_below_right h x : lt (max_step h x) x = false.
Proof.
  destruct h as [[]|[]| |[] mh eh], x as [[]|[]| |[] mx ex]; order_cases.
Qed.

Lemma max_step_cases h x : max_step h x = h \/ max_step h x = x.
Proof.
  unfold max_step.
  destruct h as [[]|[]| |[] mh eh], x as [[]|[]| |[] mx ex];
    try (now left); try (now right);
    match goal with |- context [if ?c then _ else _] => destruct c end;
    auto.
Qed.

Lemma fold_max_step_bound xs :
  existsb is_nan xs = false ->
  forall h, is_nan h = false ->
    lt (fold_left max_step xs h) h = false /\
    forall a, In a xs -> lt (fold_left max_step xs h) a = false.
Proof.
  induction xs as [|x xs IH]; intros Hn h Hh; simpl.
  - split; [apply lt_irrefl | intros a []].
  - simpl in Hn. apply orb_false_iff in Hn. destruct Hn as [Hx Hn].
    assert (Hm : is_nan (max_step h x) = false)
      by (destruct (max_step_cases h x) as [-> | ->]; assumption).
    destruct (IH Hn _ Hm) as [Hl Hr]. split.
    + eapply not_lt_trans; [exact Hm | apply max_step_not_below_left | exact Hl].
    + intros a [<- | Ha]; [| now apply Hr].
      eapply not_lt_trans; [exact Hm | apply max_step_not_below_right | exact Hl].
Qed.

Lemma fold_max_step_In xs :
  forall h, fold_left max_step xs h = h \/ In (fold_left max_step xs h) xs.
Proof.
  induction xs as [|x xs IH]; intros h; simpl; [now left|].
  destruct (IH (max_step h x)) as [E | Hin]; [| now right; right].
  rewrite E. destruct (max_step_cases h x) as [-> | ->]; [now left | now right; left].
Qed.

(** [Math.max] of numbers is not below any of them. *)
Lemma Math_max_upper xs a :
  existsb is_nan xs = false -> In a xs -> lt (Math_max xs) a = false.
Proof.
  intros Hn Ha. unfold Math_max. rewrite Hn.
  now apply (fold_max_step_bound xs Hn neg_infinity eq_refl).
Qed.

(** [Math.max] of a non-empty list of numbers is one of them. *)
Lemma Math_max_In xs :
  xs <> [] -> existsb is_nan xs = false -> In (Math_max xs) xs.
Proof.
  intros Hne Hn.
  destruct xs as [|x xs]; [congruence|].
  pose proof (Math_max_upper (x :: xs) x Hn (or_introl eq_refl)) as Hup.
  unfold Math_max in *. rewrite Hn in *.
  destruct (fold_max_step_In (x :: xs) neg_infinity) as [E | Hin];
    [| exact Hin].
  rewrite E in Hup |- *.
  simpl in Hn. apply orb_false_iff in Hn. destruct Hn as [Hx _].
  left. destruct x as [[]|[]| |[] m e]; try discriminate; reflexivity.
Qed.

(** ** Groups of detections *)

Lemma withIds_foods now foods :
  forall index, map Recognized.food (withIds now index foods) = foods.
Proof.
  induction foods as [|food rest IH]; intros index; simpl;
    [reflexivity | now rewrite IH].
Qed.

Lemma groups_keys ds :
  map Group.foodKey (groupsOf ds)
  = entriesOrder
      (Spec.firstSeen (map (Spec.keyOfDetection Str.toLowerCase) ds)).
Proof.
  unfold groupsOf. rewrite map_map. simpl. apply map_id.
Qed.

Lemma filter_length_le {A : Type} (p : A -> bool) l :
  (List.length (filter p l) <= List.length l)%nat.
Proof.
  induction l as [|x l IH]; simpl; [lia|]. destruct (p x); simpl; lia.
Qed.

Lemma firstSeen_length l :
  (List.length (Spec.firstSeen l) <= List.length l)%nat.
Proof.
  induction l as [|k l IH]; simpl; [lia|].
  pose proof (filter_length_le (fun k' => negb (k' =? k)) (Spec.firstSeen l)).
  lia.
Qed.

(** X2. A reply lists one food per distinct lower-cased label: no name
    occurs twice and there are never more foods than detections.  The
    foods come in the order of [Object.entries]: the labels that are array
    indices first, in ascending order, then the other labels in the order
    in which they first occur among the detections. *)
Theorem reply_one_food_per_label
    fetch now image status success foods error :
  recognize fetch now image
  = inr (Response.mk status (Some (Payload.mk success (Some foods) error))) ->
  exists ds,
    runCNNDetection fetch image = inr ds /\
    let names := map (fun r => FoodItem.name (Recognized.food r)) foods in
    let labels :=
      Spec.firstSeen
        (map (fun d => Str.toLowerCase (Detection.food_name d)) ds) in
    names = entriesOrder labels /\
    Permutation names labels /\
    ((forall d, In d ds ->
        Obj.array_index (Str.toLowerCase (Detection.food_name d)) = None) ->
     names = labels) /\
    NoDup names /\
    (List.length foods <= List.length ds)%nat.
Proof.
  intros Hr. destruct (reply_foods _ _ _ _ _ _ _ Hr) as (ds & Hds & _ & ->).
  exists ds. split; [exact Hds|]. cbv zeta.
  assert (E : map (fun r => FoodItem.name (Recognized.food r))
                  (withIds now 0 (map foodOfGroup (groupsOf ds)))
              = entriesOrder
                  (Spec.firstSeen
                     (map (fun d => Str.toLowerCase (Detection.food_name d))
                          ds))).
  { rewrite <- (map_map Recognized.food FoodItem.name), withIds_foods.
    rewrite map_map.
    rewrite (map_ext _ Group.foodKey foodOfGroup_name).
    apply groups_keys. }
  split; [exact E|]. split; [| split; [| split]].
  - rewrite E. apply entriesOrder_perm.
  - intros Hnamed. rewrite E. apply entriesOrder_named.
    intros k Hk. apply (proj1 (firstSeen_In _ _)), in_map_iff in Hk.
    destruct Hk as (d & <- & Hd). now apply Hnamed.
  - rewrite E. apply entriesOrder_NoDup, firstSeen_NoDup.
  - rewrite <- (length_map (fun r => FoodItem.name (Recognized.food r))), E.
    rewrite entriesOrder_length.
    rewrite <- (length_map (fun d => Str.toLowerCase (Detection.food_name d)) ds).
    apply firstSeen_length.
Qed.

Lemma reply_one_food_per_label_witness :
  let fetch : Fetch :=
    fun _ => ret (Reply.mk true 200
                    (ret (Result true
                            (Some [ Detection.mk "Dosa" (dec 9 10) (dec 3 10);
                                    Detection.mk "10" (dec 8 10) (dec 2 10);
                                    Detection.mk "DOSA" (dec 7 10) (dec 1 10);
                                    Detection.mk "2" (dec 6 10) (dec 1 10) ])))) in
  let now : nat -> N := fun _ => 0%N in
  exists foods ds,
    recognize fetch now (Text "image")
    = inr (Response.mk 200 (Some (Payload.mk (Some true) (Some foods) None))) /\
    runCNNDetection fetch (Text "image") = inr ds /\
    map (fun r => FoodItem.name (Recognized.food r)) foods
    = ["2"; "10"; "dosa"] /\
    (List.length foods <= List.length ds)%nat.
Proof.
  intros fetch now.
  destruct (runCNNDetection_returns fetch (Text "image")) as [ds0 Hds0].
  assert (E0 : inr ds0 = runCNNDetection fetch (Text "image"))
    by now symmetry.
  vm_compute in E0. injection E0 as ->.
  pose proof (recognize_foods fetch now (Text "image") _ eq_refl Hds0 eq_refl)
    as Hr.
  destruct (reply_one_food_per_label fetch now (Text "image") _ _ _ _ Hr)
    as (ds & Hds & Hnames & _ & _ & _ & Hlen).
  eexists; exists ds. split; [exact Hr|]. split; [exact Hds|].
  split; [| exact Hlen].
  rewrite Hnames.
  assert (E : inr ds = runCNNDetection fetch (Text "image")) by now symmetry.
  vm_compute in E. injection E as ->. reflexivity.
Defined.





(** X4. The area ratio passed to the estimator is the largest of the
    group: it is the area ratio of one of the members and no member's is
    larger; if a member's area ratio is [NaN], so is the group's. *)
Theorem maxAreaRatio_is_largest ds gs g :
  normalize ds = inr gs -> In g gs ->
  let areas :=
    map Detection.area_ratio
        (Spec.members Str.toLowerCase (Group.foodKey g) ds) in
  (existsb is_nan areas = false ->
   In (Group.maxAreaRatio g) areas /\
   forall a, In a areas -> lt (Group.maxAreaRatio g) a = false) /\
  (existsb is_nan areas = true -> Group.maxAreaRatio g = NaN).
Proof.
  intros Hgs Hg areas. apply normalize_returns in Hgs. destruct Hgs as [_ ->].
  pose proof (group_of_key _ _ Hg) as [Eg Hk].
  assert (Em : Group.maxAreaRatio g = Math_max areas) by now rewrite Eg at 1.
  split.
  - intros Hn. rewrite Em. split.
    + apply Math_max_In; [| exact Hn].
      apply in_map_iff in Hk. destruct Hk as (d & Ek & Hd).
      assert (Hm : In d (Spec.members Str.toLowerCase (Group.foodKey g) ds)).
      { unfold Spec.members. apply filter_In. split; [exact Hd|].
        rewrite Ek. apply String.eqb_refl. }
      intros E. apply (in_map Detection.area_ratio) in Hm.
      fold areas in Hm. rewrite E in Hm. exact Hm.
    + intros a Ha. now apply Math_max_upper.
  - intros Hn. rewrite Em. unfold Math_max. now rewrite Hn.
Qed.

Lemma maxAreaRatio_is_largest_witness :
  let ds := [ Detection.mk "Dal" (dec 9 10) (dec 2 10);
              Detection.mk "dal" (dec 8 10) (dec 6 10);
              Detection.mk "Dal" (dec 7 10) (dec 4 10) ] in
  let g := Group.mk "dal" (average [dec 9 10; dec 8 10; dec 7 10])
                    (dec 6 10) 3 in
  normalize ds = inr [g] /\ In g [g] /\
  In (Group.maxAreaRatio g) [dec 2 10; dec 6 10; dec 4 10] /\
  lt (Group.maxAreaRatio g) (dec 4 10) = false.
Proof.
  intros ds g.
  assert (Hn : normalize ds = inr [g]) by (vm_compute; reflexivity).
  split; [exact Hn|]. split; [now left|].
  destruct (maxAreaRatio_is_largest ds [g] g Hn (or_introl eq_refl))
    as [Hmax _].
  destruct (Hmax eq_refl) as [Hin Hup].
  split; [exact Hin|]. apply Hup. right; right; left. reflexivity.
Defined.

(** ** Portions *)

(** X5. A larger area never gives a lighter portion: the weight looked up
    for the bucket of [areaRatio] is monotone in [areaRatio]. *)
Theorem portion_weight_monotone a b :
  le a b = true ->
  le (number_at (getPortionFromArea a) PORTION_GRAMS)
     (number_at (getPortionFromArea b) PORTION_GRAMS) = true.
Proof.
  intros Hab. unfold getPortionFromArea.
  destruct (lt b (dec 10 100)) eqn:B1.
  { rewrite (le_lt_trans _ _ _ Hab B1). reflexivity. }
  destruct (lt b (dec 25 100)) eqn:B2.
  { pose proof (le_lt_trans _ _ _ Hab B2) as A2.
    destruct (lt a (dec 10 100)); [reflexivity|]. rewrite A2. reflexivity. }
  destruct (lt b (dec 50 100)) eqn:B3.
  { pose proof (le_lt_trans _ _ _ Hab B3) as A3.
    destruct (lt a (dec 10 100)); [reflexivity|].
    destruct (lt a (dec 25 100)); [reflexivity|]. rewrite A3. reflexivity. }
  destruct (lt a (dec 10 100)); [reflexivity|].
  destruct (lt a (dec 25 100)); [reflexivity|].
  destruct (lt a (dec 50 100)); reflexivity.
Qed.

Lemma portion_weight_monotone_witness :
  le (dec 24 100) (dec 26 100) = true /\
  le (number_at (getPortionFromArea (dec 24 100)) PORTION_GRAMS)
     (number_at (getPortionFromArea (dec 26 100)) PORTION_GRAMS) = true /\
  number_at (getPortionFromArea (dec 24 100)) PORTION_GRAMS = int 100 /\
  number_at (getPortionFromArea (dec 26 100)) PORTION_GRAMS = int 150.
Proof.
  split; [reflexivity|].
  split; [apply (portion_weight_monotone (dec 24 100) (dec 26 100)); reflexivity|].
  split; reflexivity.
Defined.



(** ** Keys of food names *)

Lemma normalizedFoodName_lower s :
  normalizedFoodName (Str.toLowerCase s) = normalizedFoodName s.
Proof. unfold normalizedFoodName. now rewrite toLowerCase_idem. Qed.

(** X7. The lookup key of a food name is a normal form: computing the key
    of a key changes nothing, and a key holds neither white space nor an
    upper-case letter. *)
Theorem normalizedFoodName_idempotent foodName :
  normalizedFoodName (normalizedFoodName foodName)
  = normalizedFoodName foodName /\
  forall c, In c (list_ascii_of_string (normalizedFoodName foodName)) ->
    Str.is_space c = false /\ Str.is_upper c = false.
Proof.
  unfold normalizedFoodName, Str.replace_spaces. split.
  - rewrite toLowerCase_replace_spaces_from, toLowerCase_idem.
    apply replace_spaces_from_fixed.
    intros c. apply replace_spaces_from_no_space.
  - intros c Hc. split; [exact (replace_spaces_from_no_space _ _ _ Hc)|].
    rewrite <- toLowerCase_idem, <- toLowerCase_replace_spaces_from in Hc.
    exact (toLowerCase_no_upper _ _ Hc).
Qed.

(** X8. Lower-casing a label, as the handler does before it calls the
    estimator, changes the name echoed in the estimate and nothing else:
    portion, energy and macro-nutrients are those of the original label. *)
Theorem estimate_ignores_letter_case foodName count areaRatio :
  let item := calculateNutrition foodName count areaRatio in
  calculateNutrition (Str.toLowerCase foodName) count areaRatio
  = FoodItem.mk (Str.toLowerCase foodName) (FoodItem.portion_size item)
      (FoodItem.portion_grams item) (FoodItem.calories item)
      (FoodItem.protein item) (FoodItem.carbs item) (FoodItem.fat item)
      (FoodItem.confidence item).
Proof.
  unfold calculateNutrition. rewrite normalizedFoodName_lower.
  destruct (Obj.member (normalizedFoodName foodName) NUTRITION_DATA);
    try reflexivity;
    now destruct (portion (normalizedFoodName foodName) count areaRatio).
Qed.

(** ** The tables *)

(** X9. No row of [NUTRITION_DATA] is dead: every key is written in
    normal form and occurs once, so the estimator finds each row under its
    own key. *)
Theorem nutrition_rows_reachable key nutrition :
  In (key, nutrition) NUTRITION_DATA ->
  Obj.get (normalizedFoodName key) NUTRITION_DATA = Some nutrition.
Proof.
  unfold NUTRITION_DATA at 1. cbn [In]. intros H.
  repeat (destruct H as [H | H];
          [injection H as <- <-; vm_compute; reflexivity |]).
  destruct H.
Qed.

Lemma nutrition_rows_reachable_witness :
  In ("ladys_finger",
      Profile.mk (int 33) (int 7) (tenths 19) (tenths 2) (int 20) "Low")
     NUTRITION_DATA /\
  Obj.get (normalizedFoodName "ladys_finger") NUTRITION_DATA
  = Some (Profile.mk (int 33) (int 7) (tenths 19) (tenths 2) (int 20) "Low").
Proof.
  assert (H : In ("ladys_finger",
                  Profile.mk (int 33) (int 7) (tenths 19) (tenths 2) (int 20)
                             "Low") NUTRITION_DATA).
  { unfold NUTRITION_DATA. cbn [In]. do 24 right. left. reflexivity. }
  split; [exact H | exact (nutrition_rows_reachable _ _ H)].
Defined.

(** X10. Every countable food has a nutrition row and a weight per piece
    that is a positive whole number of grams, and it is found under its own
    key: a countable food never falls back to the default estimate. *)
Theorem countable_rows_have_nutrition key weight :
  In (key, weight) COUNTABLE_FOODS ->
  Obj.get (normalizedFoodName key) COUNTABLE_FOODS = Some weight /\
  (exists w, to_Z weight = Some w /\ (0 < w)%Z) /\
  exists nutrition,
    Obj.get (normalizedFoodName key) NUTRITION_DATA = Some nutrition.
Proof.
  unfold COUNTABLE_FOODS at 1. cbn [In]. intros H.
  repeat (destruct H as [H | H];
          [injection H as <- <-;
           split; [vm_compute; reflexivity|];
           split; [eexists; split; [vm_compute; reflexivity | lia]
                  | eexists; vm_compute; reflexivity] |]).
  destruct H.
Qed.

Lemma countable_rows_have_nutrition_witness :
  In ("dosa", int 120) COUNTABLE_FOODS /\
  Obj.get (normalizedFoodName "dosa") COUNTABLE_FOODS = Some (int 120) /\
  exists nutrition,
    Obj.get (normalizedFoodName "dosa") NUTRITION_DATA = Some nutrition.
Proof.
  assert (H : In ("dosa", int 120) COUNTABLE_FOODS).
  { unfold COUNTABLE_FOODS. cbn [In]. do 2 right. left. reflexivity. }
  destruct (countable_rows_have_nutrition _ _ H) as (Hg & _ & Hn).
  split; [exact H|]. split; [exact Hg | exact Hn].
Defined.

(** ** End-to-end replies *)

Lemma runCNNDetection_failed fetch image :
  Spec.serviceFailed (fetch image) = true ->
  runCNNDetection fetch image = inr mockCNNDetection.
Proof.
  unfold Spec.serviceFailed, runCNNDetection, callDetectionApi.
  destruct (fetch image) as [e | response]; simpl; [reflexivity|].
  destruct (Reply.ok response); simpl; [| reflexivity].
  destruct (Reply.json response) as [e | [| [] [ds |]]]; simpl;
    try reflexivity; discriminate.
Qed.



Lemma mock_foods :
  map foodOfGroup (groupsOf mockCNNDetection)
  = [ FoodItem.mk "idli" "1 pieces" (int 40) (int 23) (dec 8 10) (dec 48 10)
                  (dec 2 10) (dec 92 100);
      FoodItem.mk "sambar" "Large portion" (int 150) (int 135) (int 6)
                  (int 18) (dec 45 10) (dec 87 100);
      FoodItem.mk "chapathi" "1 pieces" (int 45) (int 135) (dec 36 10)
                  (dec 207 10) (dec 41 10) (dec 78 100) ].
Proof. vm_compute. reflexivity. Qed.

(** X12. Whenever the detection service fails (network error, error
    status, unreadable or [null] body, [success] falsy or [detections]
    missing) and the request carries an image, the reply is the same three
    demo foods with their estimates; only the clock reading in the
    identifiers varies. *)
Theorem failed_service_reply fetch now image :
  ToBoolean image = true ->
  Spec.serviceFailed (fetch image) = true ->
  recognize fetch now image
  = inr (Response.mk 200
      (Some (Payload.mk (Some true)
         (Some
            [ Recognized.mk
                ("food_" ++ N_to_string (now 0%nat) ++ "_0")%string
                (FoodItem.mk "idli" "1 pieces" (int 40) (int 23) (dec 8 10)
                             (dec 48 10) (dec 2 10) (dec 92 100));
              Recognized.mk
                ("food_" ++ N_to_string (now 1%nat) ++ "_1")%string
                (FoodItem.mk "sambar" "Large portion" (int 150) (int 135)
                             (int 6) (int 18) (dec 45 10) (dec 87 100));
              Recognized.mk
                ("food_" ++ N_to_string (now 2%nat) ++ "_2")%string
                (FoodItem.mk "chapathi" "1 pieces" (int 45) (int 135)
                             (dec 36 10) (dec 207 10) (dec 41 10)
                             (dec 78 100)) ])
         None))).
Proof.
  intros Himg Hfail.
  rewrite (recognize_foods fetch now image mockCNNDetection Himg
             (runCNNDetection_failed fetch image Hfail) eq_refl).
  rewrite mock_foods. reflexivity.
Qed.

Lemma failed_service_reply_witness :
  let fetch : Fetch :=
    fun _ => ret (Reply.mk true 200 (ret (Result false None))) in
  let now : nat -> N := fun i => (1700000000000 + N.of_nat i)%N in
  ToBoolean (Text "data:image/png;base64,AAAA") = true /\
  Spec.serviceFailed (fetch (Text "data:image/png;base64,AAAA")) = true /\
  exists foods,
    recognize fetch now (Text "data:image/png;base64,AAAA")
    = inr (Response.mk 200 (Some (Payload.mk (Some true) (Some foods) None))) /\
    map Recognized.id foods
    = ["food_1700000000000_0"; "food_1700000000001_1";
       "food_1700000000002_2"].
Proof.
  intros fetch now.
  split; [reflexivity|]. split; [reflexivity|].
  eexists. split.
  - exact (failed_service_reply fetch now
             (Text "data:image/png;base64,AAAA") eq_refl eq_refl).
  - vm_compute. reflexivity.
Defined.

(** X13. A request without a usable image never reaches the detector: for
    every detector and estimator, even ones that throw, a body whose
    [image] is missing, [null], [false], [0], [NaN] or the empty string is
    answered with status 400 and the message "No image provided", and a
    preflight request is answered before its body is read. *)
Theorem no_image_is_rejected detect estimate now :
  (forall method image,
     method <> "OPTIONS" ->
     ToBoolean image = false ->
     handleWith detect estimate now
                (Request.mk method (ret (ObjectBody image)))
     = inr (Response.mk 400
              (Some (Payload.mk None None (Some "No image provided"))))) /\
  (forall image,
     ToBoolean image = false <->
     image = Undefined \/ image = Null \/ image = Bool false \/
     image = Text "" \/ exists x, image = Num x /\ truthy x = false) /\
  (forall json,
     handleWith detect estimate now (Request.mk "OPTIONS" json)
     = inr (Response.mk 200 None)).
Proof.
  split; [| split].
  - intros method image Hm Himg. unfold handleWith, tryRecognize. simpl.
    apply String.eqb_neq in Hm. rewrite Hm, Himg. reflexivity.
  - intros image. split.
    + destruct image as [| | [] | x | s |]; simpl; intros H;
        try discriminate H; auto.
      * do 4 right. now exists x.
      * destruct s; [auto | discriminate H].
    + intros [-> | [-> | [-> | [-> | (x & -> & Hx)]]]]; simpl;
        reflexivity || assumption.
  - intros json. reflexivity.
Qed.

Lemma no_image_is_rejected_witness :
  let detect : JsValue -> Js (list Detection.t) :=
    fun _ => raise (Error "detector crashed") in
  let estimate : string -> nat -> number -> Js FoodItem.t :=
    fun _ _ _ => raise NotAnError in
  let now : nat -> N := fun _ => 0%N in
  "POST" <> "OPTIONS" /\
  ToBoolean (Text "") = false /\
  handleWith detect estimate now (Request.mk "POST" (ret (ObjectBody (Text ""))))
  = inr (Response.mk 400
           (Some (Payload.mk None None (Some "No image provided")))).
Proof.
  intros detect estimate now.
  assert (Hm : "POST" <> "OPTIONS") by discriminate.
  split; [exact Hm|]. split; [reflexivity|].
  exact (proj1 (no_image_is_rejected detect estimate now)
               "POST" (Text "") Hm eq_refl).
Defined.


Lemma normalizedFoodName_idempotent_witness :
  normalizedFoodName "Lemon  Rice" = "lemon_rice" /\
  In "_"%char (list_ascii_of_string (normalizedFoodName "Lemon  Rice")) /\
  Str.is_space "_" = false /\ Str.is_upper "_" = false.
Proof.
  assert (Hin : In "_"%char
                   (list_ascii_of_string (normalizedFoodName "Lemon  Rice"))).
  { do 5 right. left. reflexivity. }
  split; [reflexivity|]. split; [exact Hin|].
  exact (proj2 (normalizedFoodName_idempotent "Lemon  Rice") _ Hin).
Defined.

(** ** The client of the edge function *)

Section ClientFacts.
Context {A : Type}.
Variable fileToBase64 : Js string.
Variable fetch : string -> Js (Http.t A).
Variable processingTime catchTime : number.

Let client := recognizeFood fileToBase64 fetch processingTime catchTime.

(** The three ways in which [recognizeFood] completes. *)
Lemma recognizeFood_cases :
  (exists base64 response data,
     fileToBase64 = inr base64 /\ fetch base64 = inr response /\
     Http.ok response = true /\
     Http.json response = inr (AnswerObject data) /\
     Data.success data = Some true /\
     client = inr (FoodRecognitionResult.mk true (Data.foods data)
                     (Math_round processingTime) None)) \/
  (exists message,
     client = inr (FoodRecognitionResult.mk false (Some [])
                     (Math_round processingTime) (Some message))) \/
  (exists message,
     client = inr (FoodRecognitionResult.mk false (Some [])
                     (Math_round catchTime) (Some message))).
Proof.
  unfold client, recognizeFood, tryRecognizeFood.
  destruct fileToBase64 as [e | base64]; simpl; [right; right; eauto|].
  destruct (fetch base64) as [e | response] eqn:Hf; simpl;
    [right; right; eauto|].
  destruct (Http.ok response) eqn:Hok; simpl.
  - destruct (Http.json response) as [e | [| data]] eqn:Hj; simpl;
      [right; right; eauto | right; right; eauto |].
    destruct (Data.success data) as [[] |] eqn:Hs; simpl;
      [| right; left; eauto | right; left; eauto].
    left. exists base64, response, data. rewrite Hf. auto 10.
  - destruct (Http.json response) as [e | [| data]]; simpl;
      [right; left; eauto | right; right; eauto | right; left; eauto].
Qed.

(** X14. [recognizeFood] never rejects, and its result is well formed: a
    failure carries an empty list of foods and an error text, a success
    carries no error text. *)
Theorem recognizeFood_never_rejects :
  exists result,
    recognizeFood fileToBase64 fetch processingTime catchTime = inr result /\
    (FoodRecognitionResult.success result = false ->
     FoodRecognitionResult.foods result = Some [] /\
     exists message, FoodRecognitionResult.error result = Some message) /\
    (FoodRecognitionResult.success result = true ->
     FoodRecognitionResult.error result = None).
Proof.
  fold client.
  destruct recognizeFood_cases
    as [(b & r & d & _ & _ & _ & _ & _ & E) | [(m & E) | (m & E)]];
    rewrite E; eexists; (split; [reflexivity|]); simpl;
    split; intros H; try discriminate H; eauto.
Qed.

(** X15. [recognizeFood] reports success exactly when the file was read,
    the reply has an ok status and its body is an object whose [success] is
    true; the foods of the result are then those of the body, unchanged. *)
Theorem recognizeFood_success_iff result :
  recognizeFood fileToBase64 fetch processingTime catchTime = inr result ->
  (FoodRecognitionResult.success result = true <->
   exists base64 response data,
     fileToBase64 = inr base64 /\ fetch base64 = inr response /\
     Http.ok response = true /\
     Http.json response = inr (AnswerObject data) /\
     Data.success data = Some true /\
     FoodRecognitionResult.foods result = Data.foods data).
Proof.
  fold client. intros Hr. split.
  - intros Hs.
    destruct recognizeFood_cases
      as [(b & r & d & H1 & H2 & H3 & H4 & H5 & E) | [(m & E) | (m & E)]];
      rewrite E in Hr; injection Hr as <-; try discriminate Hs.
    exists b, r, d. auto 10.
  - intros (b & r & d & H1 & H2 & H3 & H4 & H5 & _).
    revert Hr. unfold client, recognizeFood, tryRecognizeFood.
    rewrite H1. simpl. rewrite H2. simpl. rewrite H3. simpl.
    rewrite H4. simpl. rewrite H5. simpl. now intros [= <-].
Qed.

(** X16. The meal page reports a failed recognition as a completed
    analysis: whenever [recognizeFood] fails, [processImage] empties the list
    of foods and shows "Analysis complete" with 0 items, and the error text
    is dropped.  Its failure toast is shown only when the reply said
    [success] without [foods]. *)
Theorem processImage_hides_failures prev :
  (forall result,
     recognizeFood fileToBase64 fetch processingTime catchTime = inr result ->
     FoodRecognitionResult.success result = false ->
     processImage (recognizeFood fileToBase64 fetch processingTime catchTime)
                  prev
     = (Some [],
        AnalysisComplete 0 (FoodRecognitionResult.processing_time_ms result))) /\
  (forall state,
     processImage (recognizeFood fileToBase64 fetch processingTime catchTime)
                  prev
     = (state, AnalysisFailed) ->
     state = None /\
     exists base64 response data,
       fileToBase64 = inr base64 /\ fetch base64 = inr response /\
       Http.ok response = true /\
       Http.json response = inr (AnswerObject data) /\
       Data.success data = Some true /\ Data.foods data = None).
Proof.
  fold client. split.
  - intros result Hr Hs.
    destruct recognizeFood_cases
      as [(b & r & d & _ & _ & _ & _ & _ & E) | [(m & E) | (m & E)]];
      rewrite E in Hr |- *; injection Hr as <-; try discriminate Hs;
      reflexivity.
  - intros state.
    destruct recognizeFood_cases
      as [(b & r & d & H1 & H2 & H3 & H4 & H5 & E) | [(m & E) | (m & E)]];
      rewrite E; simpl; try discriminate.
    destruct (Data.foods d) as [foods |] eqn:Hfoods; [discriminate|].
    intros [= <-]. split; [reflexivity|]. exists b, r, d. auto 10.
Qed.

End ClientFacts.

Lemma recognizeFood_never_rejects_witness :
  let fetch : string -> Js (Http.t nat) :=
    fun _ => raise (Error "Failed to fetch") in
  exists result,
    recognizeFood (ret "data:image/png;base64,AAAA") fetch (int 12) (int 13)
    = inr result /\
    FoodRecognitionResult.success result = false /\
    FoodRecognitionResult.foods result = Some [] /\
    exists message, FoodRecognitionResult.error result = Some message.
Proof.
  intros fetch.
  destruct (recognizeFood_never_rejects
              (ret "data:image/png;base64,AAAA") fetch (int 12) (int 13))
    as (result & Hr & Hfail & _).
  exists result. split; [exact Hr|].
  assert (Hs : FoodRecognitionResult.success result = false)
    by (injection Hr as <-; reflexivity).
  split; [exact Hs | exact (Hfail Hs)].
Defined.

Lemma recognizeFood_success_iff_witness :
  let data := Data.mk (Some true) (Some [7%nat; 8%nat]) None in
  let fetch : string -> Js (Http.t nat) :=
    fun _ => ret (Http.mk true 200 (ret (AnswerObject data))) in
  let result :=
    FoodRecognitionResult.mk true (Some [7%nat; 8%nat]) (int 12) None in
  recognizeFood (ret "data:image/png;base64,AAAA") fetch (int 12) (int 13)
  = inr result /\
  exists base64 response data',
    (inr "data:image/png;base64,AAAA" : Js string) = inr base64 /\
    fetch base64 = inr response /\
    Http.ok response = true /\
    Http.json response = inr (AnswerObject data') /\
    Data.success data' = Some true /\
    FoodRecognitionResult.foods result = Data.foods data'.
Proof.
  intros data fetch result.
  assert (Hr : recognizeFood (ret "data:image/png;base64,AAAA") fetch
                 (int 12) (int 13) = inr result) by reflexivity.
  split; [exact Hr|].
  exact (proj1 (recognizeFood_success_iff _ fetch _ _ result Hr) eq_refl).
Defined.

Lemma processImage_hides_failures_witness :
  let fetch : string -> Js (Http.t nat) :=
    fun _ => ret (Http.mk false 503 (raise (Error "Unexpected token"))) in
  let result :=
    FoodRecognitionResult.mk false (Some []) (int 12)
      (Some "Recognition failed: 503") in
  recognizeFood (ret "data:image/png;base64,AAAA") fetch (int 12) (int 13)
  = inr result /\
  FoodRecognitionResult.success result = false /\
  processImage
    (recognizeFood (ret "data:image/png;base64,AAAA") fetch (int 12) (int 13))
    (Some [7%nat])
  = (Some [], AnalysisComplete 0 (int 12)).
Proof.
  intros fetch result.
  assert (Hr : recognizeFood (ret "data:image/png;base64,AAAA") fetch
                 (int 12) (int 13) = inr result) by reflexivity.
  split; [exact Hr|]. split; [reflexivity|].
  exact (proj1 (processImage_hides_failures _ fetch _ _ (Some [7%nat]))
               result Hr eq_refl).
Defined.

(** ** The client against the edge function *)

Section EndToEnd.
Context {A : Type}.
Variable decode : Recognized.t -> A.
Variable now : nat -> N.
Variable processingTime catchTime : number.

Lemma callEdgeFunction_reply serve base64 response :
  serve (Request.mk "POST" (ret (ObjectBody (Text base64)))) = inr response ->
  callEdgeFunction decode serve base64 = inr (httpOf decode response).
Proof. unfold callEdgeFunction. now intros ->. Qed.





(** X18. An exception inside the edge function reaches the user of the
    client as text: the handler turns it into a reply with status 500 and
    the client returns its message as [error], or "Recognition failed: 500"
    when the message is empty. *)
Theorem edge_function_error_reaches_client detect estimate base64 e :
  tryRecognize detect estimate now
               (Request.mk "POST" (ret (ObjectBody (Text base64)))) = inl e ->
  recognizeFood (ret base64)
                (callEdgeFunction decode (handleWith detect estimate now))
                processingTime catchTime
  = inr (FoodRecognitionResult.mk false (Some []) (Math_round processingTime)
           (Some (if errorMessage e =? "" then "Recognition failed: 500"
                  else errorMessage e))).
Proof.
  intros He.
  assert (Hr : handleWith detect estimate now
                 (Request.mk "POST" (ret (ObjectBody (Text base64))))
               = inr (Response.mk 500
                        (Some (Payload.mk (Some false) None
                                 (Some (errorMessage e)))))).
  { unfold handleWith.
    change (Request.method
              (Request.mk "POST" (ret (ObjectBody (Text base64))))
            =? "OPTIONS") with false.
    cbv iota. rewrite He. reflexivity. }
  apply callEdgeFunction_reply in Hr.
  unfold recognizeFood, tryRecognizeFood.
  remember (callEdgeFunction decode (handleWith detect estimate now)) as fetch.
  simpl. rewrite Hr. reflexivity.
Qed.

End EndToEnd.


Lemma edge_function_error_reaches_client_witness :
  let detect : JsValue -> Js (list Detection.t) :=
    fun _ => raise (Error "detector crashed") in
  let estimate : string -> nat -> number -> Js FoodItem.t :=
    fun foodKey count maxAreaRatio =>
      ret (calculateNutrition foodKey count maxAreaRatio) in
  let now : nat -> N := fun _ => 0%N in
  tryRecognize detect estimate now
    (Request.mk "POST" (ret (ObjectBody (Text "data:image/png;base64,AAAA"))))
  = inl (Error "detector crashed") /\
  recognizeFood (ret "data:image/png;base64,AAAA")
    (callEdgeFunction Recognized.id (handleWith detect estimate now))
    (int 12) (int 13)
  = inr (FoodRecognitionResult.mk false (Some []) (int 12)
           (Some "detector crashed")).
Proof.
  intros detect estimate now.
  assert (He : tryRecognize detect estimate now
                 (Request.mk "POST"
                    (ret (ObjectBody (Text "data:image/png;base64,AAAA"))))
               = inl (Error "detector crashed")) by reflexivity.
  split; [exact He|].
  exact (edge_function_error_reaches_client Recognized.id now (int 12) (int 13)
           detect estimate "data:image/png;base64,AAAA" _ He).
Defined.

(** ** Manual search *)

Lemma prefix_app t s : String.prefix t s = true <-> exists b, s = (t ++ b)%string.
Proof.
  revert s; induction t as [|c t IH]; intros s.
  - split; [intros _; now exists s | destruct s; reflexivity].
  - destruct s as [|c' s]; simpl;
      [split; [discriminate | intros [b Hb]; discriminate Hb]|].
    destruct (Ascii.ascii_dec c c') as [<- | Hne].
    + rewrite IH. split; intros [b Hb]; exists b; [now rewrite Hb | now injection Hb].
    + split; [discriminate | intros [b Hb]; injection Hb as Hc _; congruence].
Qed.

(** [includes] finds exactly the substrings. *)
Lemma includes_app s t :
  includes s t = true <-> exists a b, s = (a ++ t ++ b)%string.
Proof.
  induction s as [|c s IH]; cbn [includes].
  - rewrite orb_false_r, prefix_app. split.
    + intros [b Hb]. now exists "", b.
    + intros (a & b & H). destruct a; [now exists b | discriminate H].
  - rewrite orb_true_iff, prefix_app, IH. split.
    + intros [[b Hb] | (a & b & H)].
      * now exists "", b.
      * exists (String c a), b. simpl. now rewrite H.
    + intros ([|c' a] & b & H).
      * left. now exists b.
      * right. injection H as _ H. now exists a, b.
Qed.

Lemma toLowerCase_app s t :
  Str.toLowerCase (s ++ t) = (Str.toLowerCase s ++ Str.toLowerCase t)%string.
Proof. induction s as [|c s IH]; simpl; [reflexivity | now rewrite IH]. Qed.

Lemma append_assoc (a b c : string) :
  ((a ++ b) ++ c)%string = (a ++ b ++ c)%string.
Proof. induction a as [|x a IH]; simpl; [reflexivity | now rewrite IH]. Qed.

Lemma includes_toLowerCase s t :
  includes s t = true ->
  includes (Str.toLowerCase s) (Str.toLowerCase t) = true.
Proof.
  rewrite !includes_app. intros (a & b & ->).
  exists (Str.toLowerCase a), (Str.toLowerCase b).
  now rewrite !toLowerCase_app.
Qed.

Lemma includes_trans s t u :
  includes s t = true -> includes t u = true -> includes s u = true.
Proof.
  rewrite !includes_app. intros (a & b & ->) (a' & b' & ->).
  exists (a ++ a')%string, (b' ++ b)%string.
  now rewrite !append_assoc.
Qed.

Lemma withGeneratedIds_name generateId foods :
  forall index,
    map RecognizedFood.name (withGeneratedIds generateId index foods)
    = map (fun entry => DatabaseFood.name (snd entry)) foods.
Proof.
  induction foods as [|[key food] rest IH]; intros index; simpl;
    [reflexivity | now rewrite IH].
Qed.

Lemma withGeneratedIds_In generateId foods :
  forall index key food,
    In (key, food) foods ->
    exists id,
      In (RecognizedFood.mk id (DatabaseFood.name food) (int 1)
            (DatabaseFood.portion_size food) (DatabaseFood.portion_grams food)
            (DatabaseFood.calories food) (DatabaseFood.protein food)
            (DatabaseFood.carbs food) (DatabaseFood.fat food))
         (withGeneratedIds generateId index foods).
Proof.
  induction foods as [|[key' food'] rest IH]; intros index key food; simpl;
    [tauto|].
  intros [[= -> ->] | H].
  - eexists. left. reflexivity.
  - destruct (IH (S index) _ _ H) as [id Hid]. exists id. now right.
Qed.

(** X19. Every food of the database is found by typing any part of its
    name, in any letter case: the result then lists the food with the
    values of its row and confidence 1. *)
Theorem searchFoods_finds_by_part_of_name generateId key food part query :
  In (key, food) FOOD_DATABASE ->
  includes (DatabaseFood.name food) part = true ->
  Str.toLowerCase query = Str.toLowerCase part ->
  exists id,
    In (RecognizedFood.mk id (DatabaseFood.name food) (int 1)
          (DatabaseFood.portion_size food) (DatabaseFood.portion_grams food)
          (DatabaseFood.calories food) (DatabaseFood.protein food)
          (DatabaseFood.carbs food) (DatabaseFood.fat food))
       (searchFoods generateId query).
Proof.
  intros Hin Hpart Hq. unfold searchFoods.
  apply withGeneratedIds_In with (key := key).
  apply filter_In. split; [exact Hin|]. simpl.
  rewrite Hq. now apply includes_toLowerCase.
Qed.

Lemma searchFoods_finds_by_part_of_name_witness :
  let pizza :=
    DatabaseFood.mk "Margherita Pizza Slice" "2 slices (180g)" (int 180)
                    (int 450) (int 18) (int 52) (int 20) in
  In ("pizza", pizza) FOOD_DATABASE /\
  includes (DatabaseFood.name pizza) "Pizza" = true /\
  Str.toLowerCase "PIZZA" = Str.toLowerCase "Pizza" /\
  exists id,
    In (RecognizedFood.mk id "Margherita Pizza Slice" (int 1)
          "2 slices (180g)" (int 180) (int 450) (int 18) (int 52) (int 20))
       (searchFoods (fun index => nat_to_string index) "PIZZA").
Proof.
  intros pizza.
  assert (Hin : In ("pizza", pizza) FOOD_DATABASE).
  { unfold FOOD_DATABASE. cbn [In]. do 4 right. left. reflexivity. }
  split; [exact Hin|]. split; [reflexivity|]. split; [reflexivity|].
  exact (searchFoods_finds_by_part_of_name _ "pizza" pizza "Pizza" "PIZZA"
           Hin eq_refl eq_refl).
Defined.

(** X20. Typing more never adds results: if the query [shorter] occurs in
    the query [longer], every name listed for [longer] is listed for
    [shorter], and both lists keep the order of the database. *)
Theorem searchFoods_narrows generateId shorter longer :
  includes longer shorter = true ->
  incl (map RecognizedFood.name (searchFoods generateId longer))
       (map RecognizedFood.name (searchFoods generateId shorter)).
Proof.
  intros Hsub name. unfold searchFoods.
  rewrite !withGeneratedIds_name, !in_map_iff.
  intros (entry & <- & Hin). exists entry. split; [reflexivity|].
  apply filter_In in Hin. destruct Hin as [Hdb Hmatch].
  apply filter_In. split; [exact Hdb|].
  eapply includes_trans; [exact Hmatch|].
  now apply includes_toLowerCase.
Qed.

Lemma searchFoods_narrows_witness :
  includes "grilled s" "grilled" = true /\
  map RecognizedFood.name (searchFoods (fun _ => "id") "grilled s")
  = ["Grilled Salmon"; "Grilled Steak"] /\
  incl (map RecognizedFood.name (searchFoods (fun _ => "id") "grilled s"))
       (map RecognizedFood.name (searchFoods (fun _ => "id") "grilled")).
Proof.
  split; [reflexivity|]. split; [reflexivity|].
  apply (searchFoods_narrows (fun _ => "id") "grilled" "grilled s").
  reflexivity.
Defined.

Lemma withGeneratedIds_nil generateId foods index :
  withGeneratedIds generateId index foods = [] <-> foods = [].
Proof.
  destruct foods as [|[key food] rest]; simpl; split; congruence.
Qed.

(** X21. The search box shows nothing exactly when the query has fewer
    than two characters or occurs in no name of the database, letter case
    ignored; in particular one letter never lists anything, although every
    name contains the empty query. *)
Theorem handleSearch_empty_iff generateId query :
  handleSearch generateId query = [] <->
  (String.length query <= 1)%nat \/
  forall key food,
    In (key, food) FOOD_DATABASE ->
    includes (Str.toLowerCase (DatabaseFood.name food))
             (Str.toLowerCase query) = false.
Proof.
  unfold handleSearch.
  destruct (Nat.ltb_spec 1 (String.length query)) as [Hlong | Hshort].
  - unfold searchFoods. rewrite withGeneratedIds_nil. split.
    + intros Hnil. right. intros key food Hin.
      destruct (includes (Str.toLowerCase (DatabaseFood.name food))
                         (Str.toLowerCase query)) eqn:Hm; [| reflexivity].
      assert (H : In (key, food)
                     (filter (fun entry =>
                                includes (Str.toLowerCase
                                            (DatabaseFood.name (snd entry)))
                                         (Str.toLowerCase query))
                             (Obj.entries FOOD_DATABASE)))
        by (apply filter_In; split; assumption).
      rewrite Hnil in H. destruct H.
    + intros [Hshort | Hnone]; [lia|].
      destruct (filter _ (Obj.entries FOOD_DATABASE)) as [|[key food] rest]
        eqn:Hf; [reflexivity|].
      assert (H : In (key, food)
                     (filter (fun entry =>
                                includes (Str.toLowerCase
                                            (DatabaseFood.name (snd entry)))
                                         (Str.toLowerCase query))
                             (Obj.entries FOOD_DATABASE)))
        by (rewrite Hf; now left).
      apply filter_In in H. destruct H as [Hin Hm]. simpl in Hm.
      rewrite (Hnone _ _ Hin) in Hm. discriminate Hm.
  - split; [intros _; left; lia | reflexivity].
Qed.

Lemma handleSearch_empty_iff_witness :
  (String.length "e" <= 1)%nat /\
  handleSearch (fun _ => "id") "e" = [] /\
  searchFoods (fun _ => "id") "e" <> [].
Proof.
  assert (H : (String.length "e" <= 1)%nat) by (simpl; lia).
  split; [exact H|]. split.
  - exact (proj2 (handleSearch_empty_iff (fun _ => "id") "e") (or_introl H)).
  - discriminate.
Defined.

(** ** The list of foods of the meal page *)

Lemma removeFood_In id prev f :
  In f (removeFood id prev) <-> In f prev /\ RecognizedFood.id f <> id.
Proof.
  unfold removeFood. rewrite filter_In, negb_true_iff, String.eqb_neq.
  reflexivity.
Qed.

Lemma removeFood_absent id prev :
  ~ In id (map RecognizedFood.id prev) -> removeFood id prev = prev.
Proof.
  induction prev as [|f prev IH]; simpl; [reflexivity|]. intros H.
  destruct (String.eqb_spec (RecognizedFood.id f) id) as [E | _]; simpl.
  - exfalso. apply H. now left.
  - rewrite IH; [reflexivity|]. intros Hin. apply H. now right.
Qed.

Lemma removeFood_one id prev :
  NoDup (map RecognizedFood.id prev) ->
  In id (map RecognizedFood.id prev) ->
  S (List.length (removeFood id prev)) = List.length prev.
Proof.
  induction prev as [|f prev IH]; simpl; [tauto|].
  intros Hnd Hin. inversion Hnd as [|? ? Hnotin Hnd']; subst.
  destruct (String.eqb_spec (RecognizedFood.id f) id) as [E | Hne]; simpl.
  - subst id. fold (removeFood (RecognizedFood.id f) prev).
    now rewrite removeFood_absent.
  - destruct Hin as [E | Hin]; [contradiction|].
    fold (removeFood id prev). now rewrite IH.
Qed.

(** X22. [removeFood] removes the foods with the given identifier and
    keeps every other food; an identifier that is not in the list changes
    nothing, and when the identifiers are pairwise distinct exactly one food
    goes. *)
Theorem removeFood_removes_exactly id prev :
  (forall f, In f (removeFood id prev) <->
             In f prev /\ RecognizedFood.id f <> id) /\
  (~ In id (map RecognizedFood.id prev) -> removeFood id prev = prev) /\
  (NoDup (map RecognizedFood.id prev) ->
   In id (map RecognizedFood.id prev) ->
   S (List.length (removeFood id prev)) = List.length prev).
Proof.
  split; [intros f; apply removeFood_In|].
  split; [apply removeFood_absent | apply removeFood_one].
Qed.

Lemma removeFood_removes_exactly_witness :
  let toast :=
    RecognizedFood.mk "a1" "Whole Wheat Toast" (int 1) "2 slices (60g)"
                      (int 60) (int 138) (int 6) (int 24) (int 2) in
  let apple :=
    RecognizedFood.mk "b2" "Apple" (int 1) "1 medium (180g)" (int 180)
                      (int 95) (tenths 5) (int 25) (tenths 3) in
  NoDup (map RecognizedFood.id [toast; apple]) /\
  In "a1" (map RecognizedFood.id [toast; apple]) /\
  removeFood "a1" [toast; apple] = [apple] /\
  S (List.length (removeFood "a1" [toast; apple])) = 2%nat /\
  removeFood "zz" [toast; apple] = [toast; apple].
Proof.
  intros toast apple.
  assert (Hnd : NoDup (map RecognizedFood.id [toast; apple])).
  { simpl. constructor; [intros [H | []]; discriminate H|].
    constructor; [intros [] | constructor]. }
  assert (Hin : In "a1" (map RecognizedFood.id [toast; apple])) by now left.
  assert (Hout : ~ In "zz" (map RecognizedFood.id [toast; apple])).
  { simpl. intros [H | [H | []]]; discriminate H. }
  destruct (removeFood_removes_exactly "a1" [toast; apple]) as (_ & _ & Hone).
  destruct (removeFood_removes_exactly "zz" [toast; apple]) as (_ & Habs & _).
  split; [exact Hnd|]. split; [exact Hin|]. split; [reflexivity|].
  split; [exact (Hone Hnd Hin) | exact (Habs Hout)].
Defined.

Lemma decoded_ids_distinct (decode : Recognized.t -> RecognizedFood.t) now :
  (forall r, RecognizedFood.id (decode r) = Recognized.id r) ->
  forall items index,
    NoDup (map RecognizedFood.id (map decode (withIds now index items))).
Proof.
  intros Hid items. induction items as [|item rest IH]; intros index; simpl.
  - constructor.
  - constructor; [| apply IH].
    rewrite Hid, map_map. intros H. apply in_map_iff in H.
    destruct H as (r & E & Hr). rewrite Hid in E.
    apply withIds_index in Hr. destruct Hr as (i & Hi & E').
    rewrite E' in E. apply id_index_inj in E. lia.
Qed.

(** X23. On the foods of a reply of the edge function, as long as decoding
    keeps the identifiers, the remove button takes away the chosen food and
    no other: the list gets shorter by exactly one. *)
Theorem removeFood_on_reply
    (decode : Recognized.t -> RecognizedFood.t) now items f :
  (forall r, RecognizedFood.id (decode r) = Recognized.id r) ->
  let foods := map decode (withIds now 0 items) in
  In f foods ->
  S (List.length (removeFood (RecognizedFood.id f) foods)) = List.length foods /\
  forall g, In g foods -> RecognizedFood.id g <> RecognizedFood.id f ->
            In g (removeFood (RecognizedFood.id f) foods).
Proof.
  intros Hid foods Hf. split.
  - apply removeFood_one.
    + apply decoded_ids_distinct, Hid.
    + now apply in_map.
  - intros g Hg Hne. apply removeFood_In. now split.
Qed.

Lemma removeFood_on_reply_witness :
  let decode : Recognized.t -> RecognizedFood.t :=
    fun r =>
      RecognizedFood.mk (Recognized.id r)
        (FoodItem.name (Recognized.food r))
        (FoodItem.confidence (Recognized.food r))
        (FoodItem.portion_size (Recognized.food r))
        (FoodItem.portion_grams (Recognized.food r))
        (FoodItem.calories (Recognized.food r))
        (FoodItem.protein (Recognized.food r))
        (FoodItem.carbs (Recognized.food r))
        (FoodItem.fat (Recognized.food r)) in
  let now : nat -> N := fun _ => 1700000000000%N in
  let items := [default_item "pho"; default_item "ramen"] in
  let foods := map decode (withIds now 0 items) in
  let f := decode (Recognized.mk "food_1700000000000_0" (default_item "pho")) in
  (forall r, RecognizedFood.id (decode r) = Recognized.id r) /\
  In f foods /\
  S (List.length (removeFood (RecognizedFood.id f) foods)) = List.length foods.
Proof.
  intros decode now items foods f.
  assert (Hid : forall r, RecognizedFood.id (decode r) = Recognized.id r)
    by reflexivity.
  assert (Hf : In f foods) by (left; reflexivity).
  split; [exact Hid|]. split; [exact Hf|].
  exact (proj1 (removeFood_on_reply decode now items f Hid Hf)).
Defined.

Lemma updateFood_ids updatedFood prev :
  map RecognizedFood.id (updateFood updatedFood prev)
  = map RecognizedFood.id prev.
Proof.
  unfold updateFood. rewrite map_map. apply map_ext. intros f.
  destruct (String.eqb_spec (RecognizedFood.id f)
                            (RecognizedFood.id updatedFood)) as [E | _];
    [now rewrite E | reflexivity].
Qed.

(** X24. [updateFood] keeps the identifiers and the order of the list:
    the foods with the identifier of the edited food are replaced by it,
    every other food stays where it is, and editing a food that is not in
    the list changes nothing. *)
Theorem updateFood_replaces_in_place updatedFood prev :
  map RecognizedFood.id (updateFood updatedFood prev)
  = map RecognizedFood.id prev /\
  (forall n f,
     nth_error prev n = Some f ->
     nth_error (updateFood updatedFood prev) n
     = Some (if RecognizedFood.id f =? RecognizedFood.id updatedFood
             then updatedFood else f)) /\
  (~ In (RecognizedFood.id updatedFood) (map RecognizedFood.id prev) ->
   updateFood updatedFood prev = prev).
Proof.
  split; [apply updateFood_ids|]. split.
  - intros n f Hn. unfold updateFood.
    rewrite nth_error_map, Hn. reflexivity.
  - intros Habs. unfold updateFood. rewrite <- (map_id prev) at 2.
    apply map_ext_in. intros f Hf.
    destruct (String.eqb_spec (RecognizedFood.id f)
                              (RecognizedFood.id updatedFood)) as [E | _];
      [| reflexivity].
    exfalso. apply Habs. rewrite <- E. now apply in_map.
Qed.

Lemma updateFood_replaces_in_place_witness :
  let toast :=
    RecognizedFood.mk "a1" "Whole Wheat Toast" (int 1) "2 slices (60g)"
                      (int 60) (int 138) (int 6) (int 24) (int 2) in
  let apple :=
    RecognizedFood.mk "b2" "Apple" (int 1) "1 medium (180g)" (int 180)
                      (int 95) (tenths 5) (int 25) (tenths 3) in
  let edited :=
    RecognizedFood.mk "b2" "Apple" (int 1) "2 medium (360g)" (int 360)
                      (int 190) (int 1) (int 50) (tenths 6) in
  nth_error [toast; apple] 1 = Some apple /\
  nth_error (updateFood edited [toast; apple]) 1 = Some edited /\
  updateFood edited [toast; apple] = [toast; edited].
Proof.
  intros toast apple edited.
  assert (Hn : nth_error [toast; apple] 1 = Some apple) by reflexivity.
  split; [exact Hn|]. split; [| reflexivity].
  exact (proj1 (proj2 (updateFood_replaces_in_place edited [toast; apple]))
               1%nat apple Hn).
Defined.


(** ** The allergy badges *)

Lemma existsb_eqb_string allergy current :
  existsb (fun a => a =? allergy) current = true <-> In allergy current.
Proof.
  rewrite existsb_exists. split.
  - intros (a & Hin & E). apply String.eqb_eq in E. now subst.
  - intros Hin. exists allergy. split; [exact Hin | apply String.eqb_refl].
Qed.

Lemma filter_other_absent allergy current :
  ~ In allergy current ->
  filter (fun a => negb (a =? allergy)) current = current.
Proof.
  induction current as [|a current IH]; simpl; [reflexivity|]. intros H.
  destruct (String.eqb_spec a allergy) as [E | _]; simpl.
  - exfalso. apply H. now left.
  - rewrite IH; [reflexivity|]. intros Hin. apply H. now right.
Qed.

(** X26. Clicking an allergy badge flips the membership of that allergy
    and of no other, and never introduces a duplicate. *)
Theorem toggleAllergy_flips current allergy :
  (In allergy (toggleAllergy current allergy) <-> ~ In allergy current) /\
  (forall other, other <> allergy ->
     (In other (toggleAllergy current allergy) <-> In other current)) /\
  (NoDup current -> NoDup (toggleAllergy current allergy)).
Proof.
  unfold toggleAllergy.
  destruct (existsb (fun a => a =? allergy) current) eqn:Hex.
  - apply existsb_eqb_string in Hex. split; [| split].
    + rewrite filter_In, negb_true_iff, String.eqb_neq. tauto.
    + intros other Hne. rewrite filter_In, negb_true_iff, String.eqb_neq.
      tauto.
    + apply NoDup_filter.
  - assert (Habs : ~ In allergy current).
    { intros Hin. apply existsb_eqb_string in Hin. congruence. }
    split; [| split].
    + rewrite in_app_iff. simpl. tauto.
    + intros other Hne. rewrite in_app_iff. simpl. split; [| tauto].
      intros [H | [H | []]]; [exact H | congruence].
    + intros Hnd. apply NoDup_app; [exact Hnd | | ].
      * constructor; [intros [] | constructor].
      * intros a Ha [<- | []]. contradiction.
Qed.

Lemma toggleAllergy_flips_witness :
  NoDup ["Gluten"; "Dairy"] /\
  "Gluten" <> "Dairy" /\
  toggleAllergy ["Gluten"; "Dairy"] "Dairy" = ["Gluten"] /\
  (In "Gluten" (toggleAllergy ["Gluten"; "Dairy"] "Dairy") <->
   In "Gluten" ["Gluten"; "Dairy"]) /\
  NoDup (toggleAllergy ["Gluten"; "Dairy"] "Dairy").
Proof.
  assert (Hnd : NoDup ["Gluten"; "Dairy"]).
  { constructor; [intros [H | []]; discriminate H|].
    constructor; [intros [] | constructor]. }
  assert (Hne : "Gluten" <> "Dairy") by discriminate.
  destruct (toggleAllergy_flips ["Gluten"; "Dairy"] "Dairy")
    as (_ & Hother & Hkeep).
  split; [exact Hnd|]. split; [exact Hne|]. split; [reflexivity|].
  split; [exact (Hother "Gluten" Hne) | exact (Hkeep Hnd)].
Defined.

(** X27. Clicking the same badge twice restores the selection when the
    allergy was not selected; when it was, the allergy moves to the end of
    the list and the rest keeps its order. *)
Theorem toggleAllergy_twice current allergy :
  (~ In allergy current ->
   toggleAllergy (toggleAllergy current allergy) allergy = current) /\
  (In allergy current ->
   toggleAllergy (toggleAllergy current allergy) allergy
   = filter (fun a => negb (a =? allergy)) current ++ [allergy]).
Proof.
  split; intros H.
  - assert (Hex : existsb (fun a => a =? allergy) current = false).
    { destruct (existsb _ current) eqn:Hex; [| reflexivity].
      apply existsb_eqb_string in Hex. contradiction. }
    unfold toggleAllergy at 2. rewrite Hex. unfold toggleAllergy.
    assert (Hex' : existsb (fun a => a =? allergy) (current ++ [allergy]) = true).
    { apply existsb_eqb_string, in_app_iff. right. now left. }
    rewrite Hex', filter_app. simpl. rewrite String.eqb_refl. simpl.
    rewrite app_nil_r. now apply filter_other_absent.
  - pose proof (proj2 (existsb_eqb_string allergy current) H) as Hex.
    unfold toggleAllergy at 2. rewrite Hex. unfold toggleAllergy.
    assert (Hex' : existsb (fun a => a =? allergy)
                           (filter (fun a => negb (a =? allergy)) current)
                   = false).
    { destruct (existsb _ (filter _ current)) eqn:E; [| reflexivity].
      apply existsb_eqb_string, filter_In in E. destruct E as [_ E].
      now rewrite String.eqb_refl in E. }
    now rewrite Hex'.
Qed.

Lemma toggleAllergy_twice_witness :
  ~ In "Nuts" ["Gluten"; "Dairy"] /\
  toggleAllergy (toggleAllergy ["Gluten"; "Dairy"] "Nuts") "Nuts"
  = ["Gluten"; "Dairy"] /\
  In "Gluten" ["Gluten"; "Dairy"] /\
  toggleAllergy (toggleAllergy ["Gluten"; "Dairy"] "Gluten") "Gluten"
  = ["Dairy"; "Gluten"].
Proof.
  assert (Habs : ~ In "Nuts" ["Gluten"; "Dairy"]).
  { intros [H | [H | []]]; discriminate H. }
  assert (Hin : In "Gluten" ["Gluten"; "Dairy"]) by now left.
  destruct (toggleAllergy_twice ["Gluten"; "Dairy"] "Nuts") as [Hrestore _].
  destruct (toggleAllergy_twice ["Gluten"; "Dairy"] "Gluten") as [_ Hmove].
  split; [exact Habs|]. split; [exact (Hrestore Habs)|].
  split; [exact Hin | exact (Hmove Hin)].
Defined.

(** ** Portions in a reply *)

Lemma foodOfGroup_portion g nutrition :
  Obj.get (normalizedFoodName (Group.foodKey g)) NUTRITION_DATA
  = Some nutrition ->
  (FoodItem.portion_grams (foodOfGroup g), FoodItem.portion_size (foodOfGroup g))
  = portion (normalizedFoodName (Group.foodKey g)) (Group.count g)
            (Group.maxAreaRatio g).
Proof.
  intros Hn. unfold foodOfGroup.
  rewrite (calculateNutrition_found _ _ _ _ Hn).
  now destruct (portion (normalizedFoodName (Group.foodKey g)) (Group.count g)
                        (Group.maxAreaRatio g)).
Qed.

(** X28. The portion of a food in a reply is read off the detections that
    share its lower-cased label: a countable food is reported as that many
    pieces, each with the weight of one piece, and any other known food
    gets the portion of the largest area ratio among them. *)
Theorem reply_portion_from_detections
    fetch now image status success foods error r :
  recognize fetch now image
  = inr (Response.mk status (Some (Payload.mk success (Some foods) error))) ->
  In r foods ->
  exists ds,
    runCNNDetection fetch image = inr ds /\
    let label := FoodItem.name (Recognized.food r) in
    let same := Spec.members Str.toLowerCase label ds in
    same <> [] /\
    (forall weight,
       Obj.get (normalizedFoodName label) COUNTABLE_FOODS = Some weight ->
       FoodItem.portion_size (Recognized.food r)
       = (nat_to_string (List.length same) ++ " pieces")%string /\
       FoodItem.portion_grams (Recognized.food r)
       = mul (of_nat (List.length same)) weight) /\
    (forall nutrition,
       Obj.get (normalizedFoodName label) NUTRITION_DATA = Some nutrition ->
       truthy_at (normalizedFoodName label) COUNTABLE_FOODS = false ->
       let size :=
         getPortionFromArea (Math_max (map Detection.area_ratio same)) in
       FoodItem.portion_size (Recognized.food r)
       = (size ++ " portion")%string /\
       FoodItem.portion_grams (Recognized.food r)
       = number_at size PORTION_GRAMS).
Proof.
  intros Hr Hin.
  destruct (reply_foods _ _ _ _ _ _ _ Hr) as (ds & Hds & _ & ->).
  exists ds. split; [exact Hds|].
  apply withIds_food, in_map_iff in Hin. destruct Hin as (g & Eg & Hg).
  rewrite <- Eg. rewrite foodOfGroup_name.
  apply group_of_key in Hg. destruct Hg as [Egroup Hk].
  assert (Hcount : Group.count g
                   = List.length (Spec.members Str.toLowerCase
                                               (Group.foodKey g) ds))
    by now rewrite Egroup at 1.
  assert (Harea : Group.maxAreaRatio g
                  = Math_max (map Detection.area_ratio
                                  (Spec.members Str.toLowerCase
                                                (Group.foodKey g) ds)))
    by now rewrite Egroup at 1.
  cbv zeta. split; [| split].
  - apply in_map_iff in Hk. destruct Hk as (d & Ek & Hd).
    assert (Hm : In d (Spec.members Str.toLowerCase (Group.foodKey g) ds)).
    { unfold Spec.members. apply filter_In. split; [exact Hd|].
      rewrite Ek. apply String.eqb_refl. }
    intros E. rewrite E in Hm. destruct Hm.
  - intros weight Hw.
    destruct (countable_is_known _ _ Hw) as (_ & nutrition & Hn).
    pose proof (foodOfGroup_portion g nutrition Hn) as Hp.
    rewrite (portion_countable _ _ _ _ Hw), Hcount in Hp.
    injection Hp as Hgrams Hsize. now split.
  - intros nutrition Hn Ht.
    pose proof (foodOfGroup_portion g nutrition Hn) as Hp.
    rewrite (portion_area_based _ _ _ Ht), Harea in Hp.
    injection Hp as Hgrams Hsize. now split.
Qed.

Lemma reply_portion_from_detections_witness :
  let fetch : Fetch :=
    fun _ => ret (Reply.mk true 200
                    (ret (Result true
                            (Some [ Detection.mk "Vada" (dec 9 10) (dec 1 10);
                                    Detection.mk "Dal" (dec 8 10) (dec 3 10);
                                    Detection.mk "vada" (dec 7 10) (dec 2 10) ])))) in
  let now : nat -> N := fun _ => 0%N in
  let vada :=
    Recognized.mk "food_0_0"
      (FoodItem.mk "vada" "2 pieces" (int 140) (int 448) (dec 98 10) (int 49)
                   (dec 252 10) (dec 8 10)) in
  exists foods,
    recognize fetch now (Text "image")
    = inr (Response.mk 200 (Some (Payload.mk (Some true) (Some foods) None))) /\
    In vada foods /\
    Obj.get (normalizedFoodName "vada") COUNTABLE_FOODS = Some (int 70) /\
    FoodItem.portion_size (Recognized.food vada) = "2 pieces" /\
    FoodItem.portion_grams (Recognized.food vada) = mul (of_nat 2) (int 70).
Proof.
  intros fetch now vada.
  pose (ds0 := [ Detection.mk "Vada" (dec 9 10) (dec 1 10);
                 Detection.mk "Dal" (dec 8 10) (dec 3 10);
                 Detection.mk "vada" (dec 7 10) (dec 2 10) ]).
  assert (Hds0 : runCNNDetection fetch (Text "image") = inr ds0)
    by reflexivity.
  pose proof (recognize_foods fetch now (Text "image") ds0 eq_refl Hds0
                              eq_refl) as Hr.
  assert (Hin : In vada (withIds now 0 (map foodOfGroup (groupsOf ds0)))).
  { left. vm_compute. reflexivity. }
  eexists. split; [exact Hr|]. split; [exact Hin|].
  assert (Hw : Obj.get (normalizedFoodName "vada") COUNTABLE_FOODS
               = Some (int 70)) by reflexivity.
  split; [exact Hw|].
  destruct (reply_portion_from_detections fetch now (Text "image") _ _ _ _
              vada Hr Hin) as (ds & Hds & _ & Hcountable & _).
  assert (E : inr ds = runCNNDetection fetch (Text "image")) by now symmetry.
  vm_compute in E. injection E as ->.
  exact (Hcountable (int 70) Hw).
Defined.

(** ** The meal page against the edge function *)

Section MealPage.
Context {A : Type}.
Variable decode : Recognized.t -> A.
Variable now : nat -> N.
Variable processingTime catchTime : number.


End MealPage.


(** ** Refused requests *)

Lemma orElse_not_empty value fallback :
  fallback <> "" -> orElse value fallback <> "".
Proof.
  intros Hne. unfold orElse. destruct value as [s |]; [| exact Hne].
  destruct (String.eqb_spec s "") as [_ | Hs]; assumption.
Qed.

(** X30. When the reply has an error status, the client reports the
    [error] text of its body if there is a non-empty one, and otherwise,
    also when the body is not JSON, "Recognition failed: " followed by the
    status; the text is never empty.  A body that is [null] is not covered
    by the inner [catch]: reading its [error] throws, and the result is
    built by the outer [catch]. *)
Theorem recognizeFood_refused {A : Type}
    fileToBase64 (fetch : string -> Js (Http.t A)) processingTime catchTime
    base64 response :
  fileToBase64 = inr base64 ->
  fetch base64 = inr response ->
  Http.ok response = false ->
  let fallback :=
    ("Recognition failed: " ++ nat_to_string (Http.status response))%string in
  let result := recognizeFood fileToBase64 fetch processingTime catchTime in
  (forall data,
     Http.json response = inr (AnswerObject data) ->
     result
     = inr (FoodRecognitionResult.mk false (Some []) (Math_round processingTime)
              (Some (orElse (Data.error data) fallback))) /\
     orElse (Data.error data) fallback <> "") /\
  (forall e,
     Http.json response = inl e ->
     result
     = inr (FoodRecognitionResult.mk false (Some []) (Math_round processingTime)
              (Some fallback))) /\
  (Http.json response = inr AnswerNull ->
   result
   = inr (FoodRecognitionResult.mk false (Some []) (Math_round catchTime)
            (Some "Cannot read properties of null (reading 'error')"))).
Proof.
  intros Hfile Hfetch Hok fallback result.
  unfold result, recognizeFood, tryRecognizeFood.
  rewrite Hfile. simpl. rewrite Hfetch. simpl. rewrite Hok. simpl.
  split; [| split].
  - intros data Hj. rewrite Hj. simpl. split; [reflexivity|].
    apply orElse_not_empty. discriminate.
  - intros e Hj. rewrite Hj. reflexivity.
  - intros Hj. rewrite Hj. reflexivity.
Qed.

Lemma recognizeFood_refused_witness :
  let response : Http.t nat :=
    Http.mk false 400
      (ret (AnswerObject (Data.mk None None (Some "No image provided")))) in
  let fetch : string -> Js (Http.t nat) := fun _ => ret response in
  (inr "" : Js string) = inr "" /\
  fetch "" = inr response /\
  Http.ok response = false /\
  Http.json response
  = inr (AnswerObject (Data.mk None None (Some "No image provided"))) /\
  recognizeFood (inr "") fetch (int 12) (int 13)
  = inr (FoodRecognitionResult.mk false (Some []) (int 12)
           (Some "No image provided")).
Proof.
  intros response fetch.
  split; [reflexivity|]. split; [reflexivity|]. split; [reflexivity|].
  split; [reflexivity|].
  exact (proj1 (proj1 (recognizeFood_refused (inr "") fetch (int 12) (int 13)
                         "" response eq_refl eq_refl eq_refl)
                      (Data.mk None None (Some "No image provided"))
                      eq_refl)).
Defined.
